(** * MCP Navigator (Go): protocol client, transports and discovery

    A shallow embedding of the protocol client ([pkg/client]), of the
    [Close] paths of the three transports ([pkg/transport]) and of the
    discovery engine ([pkg/discovery]), with the properties of the design
    document stated over it.

    Conventions.
    - Go's [int64] and [int] are [Z] with the 64-bit two's complement
      wrap-around written out ([wrap64]).
    - Go's [string] is a byte string: [String.string].
    - Go's [interface{}] is the tagged union [value].
    - Go's [error] is the inductive [error]; [nil] is [None].
    - What lies outside the program (the transport behind the
      [Transport] interface, the clock behind a [context.Context], the
      operating system, the host that is probed, [encoding/json]) is an
      interface whose methods take the state of the outside before the
      call and return the state after it.  The theorems hold for every
      implementation; [Mock] gives one on which the functions run.
    - A loop that waits on the outside takes a number of turns, [fuel];
      a call that has not returned within it ends as [Blocked].  The
      [Receive] of a transport may not return, and answers [None] then;
      the other methods of the outside are taken to return.
    - The mutex of each struct is not modelled: every function below is
      one sequential call, executed from entry to return.
    - Calls to the logger have no effect on the modelled state and are
      left out. *)

From Stdlib Require Import ZArith List String Ascii Bool Lia QArith Qround.
From Stdlib Require Import Floats.SpecFloat Sorting.Sorted FinFun.
Import ListNotations.

Set Warnings "-register-all".

Local Open Scope string_scope.
Local Open Scope list_scope.
Local Open Scope Z_scope.

(** ** Machine integers *)

Definition min_int64 : Z := - 2 ^ 63.
Definition max_int64 : Z := 2 ^ 63 - 1.
Definition max_uint64 : Z := 2 ^ 64 - 1.

Definition in_int64 (z : Z) : bool := (min_int64 <=? z) && (z <=? max_int64).

(** Two's complement reduction of an integer to 64 bits. *)
Definition wrap64 (z : Z) : Z := (z + 2 ^ 63) mod 2 ^ 64 - 2 ^ 63.

(** ** The part of Go's [strconv] the client calls *)

Module Strconv.

(** Result of a parse: Go returns a value and an error, the error being
    a syntax error or a range error (which carries the clamped value). *)
Inductive parsed : Type :=
| POk (n : Z)
| PSyntax
| PRange (n : Z).

Definition is_digit (c : ascii) : bool :=
  let k := Z.of_N (N_of_ascii c) in (48 <=? k) && (k <=? 57).

Definition digit_val (c : ascii) : Z := Z.of_N (N_of_ascii c) - 48.

(** The digit loop of [ParseUint(s, 10, 64)]: [cutoff] is
    [maxUint64/10 + 1], the first value whose product by ten overflows. *)
Definition cutoff10 : Z := max_uint64 / 10 + 1.

Fixpoint parseUint_loop (n : Z) (s : string) : parsed :=
  match s with
  | EmptyString => POk n
  | String c rest =>
      if negb (is_digit c) then PSyntax
      else if cutoff10 <=? n then PRange max_uint64
      else
        let n1 := n * 10 + digit_val c in
        if max_uint64 <? n1 then PRange max_uint64
        else parseUint_loop n1 rest
  end.

Definition ParseUint (s : string) : parsed :=
  match s with
  | EmptyString => PSyntax
  | _ => parseUint_loop 0 s
  end.

(** [ParseInt(s, 10, 64)]: an optional sign, then [ParseUint]; a
    magnitude beyond the signed range is a range error. *)
Definition ParseInt (s : string) : parsed :=
  match s with
  | EmptyString => PSyntax
  | String c rest =>
      let neg := Ascii.eqb c "-" in
      let body := if Ascii.eqb c "+" || neg then rest else s in
      match ParseUint body with
      | PSyntax => PSyntax
      | POk un | PRange un =>
          let cutoff := 2 ^ 63 in
          if negb neg && (cutoff <=? un) then PRange (cutoff - 1)
          else if neg && (cutoff <? un) then PRange (- cutoff)
          else POk (if neg then - un else un)
      end
  end.

(** Decimal rendering, as [FormatInt(n, 10)] and the [%d] verb do. *)
Definition digit_char (d : Z) : ascii := ascii_of_N (Z.to_N (48 + d)).

Fixpoint formatUint_aux (fuel : nat) (n : Z) (acc : string) : string :=
  match fuel with
  | O => acc
  | S fuel' =>
      let acc' := String (digit_char (n mod 10)) acc in
      if n <? 10 then acc' else formatUint_aux fuel' (n / 10) acc'
  end.

Definition FormatUint (n : Z) : string := formatUint_aux 20 n "".

Definition FormatInt (n : Z) : string :=
  if n <? 0 then String "-" (FormatUint (- n)) else FormatUint n.

(** What a string denotes as a decimal numeral, without any bound on
    its size: an optional sign followed by one or more digits. *)
Fixpoint digits_value (acc : Z) (s : string) : option Z :=
  match s with
  | EmptyString => Some acc
  | String c rest =>
      if is_digit c then digits_value (acc * 10 + digit_val c) rest
      else None
  end.

Definition decimal_value (s : string) : option Z :=
  match s with
  | EmptyString => None
  | String c rest =>
      if Ascii.eqb c "-" then
        match rest with
        | EmptyString => None
        | _ => option_map Z.opp (digits_value 0 rest)
        end
      else if Ascii.eqb c "+" then
        match rest with
        | EmptyString => None
        | _ => digits_value 0 rest
        end
      else digits_value 0 s
  end.

End Strconv.

(** ** Floating point identifiers

    A [float64] is a [spec_float]: a signed zero, an infinity, a NaN or
    [(-1)^s * m * 2^e]. *)

Definition float64 : Type := spec_float.

(** The rational a finite float stands for. *)
Definition F2Q (f : float64) : option Q :=
  match f with
  | S754_zero _ => Some 0%Q
  | S754_finite s m e =>
      let mag :=
        match e with
        | Z0 => inject_Z (Zpos m)
        | Zpos p => inject_Z (Zpos m * 2 ^ Zpos p)
        | Zneg p => Qmake (Zpos m) (2 ^ p)%positive
        end in
      Some (if s then Qopp mag else mag)
  | _ => None
  end.

(** Rounding of a rational toward zero. *)
Definition Qtruncate (q : Q) : Z :=
  if Qle_bool 0 q then Qfloor q else Qceiling q.

Section Conversion.

(** Go leaves the result of converting a NaN, an infinity or a value
    outside the target range to the platform. *)
Variable unrepresentable : float64 -> Z.

(** The conversion [int64(f)] of a [float64]: the fraction is
    discarded (truncation toward zero). *)
Definition float64_to_int64 (f : float64) : Z :=
  match f with
  | S754_zero _ => 0
  | S754_finite s m e =>
      let t := Z.shiftl (Zpos m) e in
      let z := if s then - t else t in
      if in_int64 z then z else unrepresentable f
  | _ => unrepresentable f
  end.

End Conversion.

(** ** Errors

    [errors.New] and [fmt.Errorf] without [%w] build a leaf; [fmt.Errorf]
    with [%w] wraps a cause under a message prefix. *)

Inductive error : Type :=
| ErrNew (msg : string)
| ErrWrap (msg : string) (cause : error).

(** ** Wire model ([pkg/mcp/types.go]) *)

Module Mcp.

Definition Version : string := "2024-11-05".

(** Go's [interface{}] after decoding, and the native integers the
    client itself stores in an identifier. *)
Inductive value : Type :=
| VNil
| VBool (b : bool)
| VInt (z : Z)
| VInt64 (z : Z)
| VFloat64 (f : float64)
| VString (s : string)
| VArray (l : list value)
| VObject (l : list (string * value)).

Record ErrorInfo : Type := {
  ei_Code : Z;
  ei_Message : string;
  ei_Data : value
}.

Record ClientInfo : Type := { ci_Name : string; ci_Version : string }.
Record ServerInfo : Type := { si_Name : string; si_Version : string }.

Record ClientCapabilities : Type := {
  cc_Experimental : list (string * value);
  cc_Sampling : option unit
}.

Record ServerCapabilities : Type := {
  sc_Experimental : list (string * value);
  sc_Logging : option unit;
  sc_Prompts : option bool;
  sc_Resources : option (bool * bool);
  sc_Tools : option bool
}.

Record InitializeRequest : Type := {
  ireq_ProtocolVersion : string;
  ireq_Capabilities : ClientCapabilities;
  ireq_ClientInfo : ClientInfo
}.

Record InitializeResponse : Type := {
  ires_ProtocolVersion : string;
  ires_Capabilities : ServerCapabilities;
  ires_ServerInfo : ServerInfo
}.

Record Tool : Type := {
  tool_Name : string;
  tool_Description : string;
  tool_InputSchema : list (string * value)
}.

Record Content : Type := {
  ct_Type : string;
  ct_Text : string;
  ct_Data : string;
  ct_MimeType : string;
  ct_Name : string;
  ct_URI : string;
  ct_Annotations : list (string * value)
}.

Record Resource : Type := {
  res_URI : string;
  res_Name : string;
  res_Description : string;
  res_MimeType : string;
  res_Annotations : list (string * value)
}.

Record PromptArgument : Type := {
  pa_Name : string;
  pa_Description : string;
  pa_Required : bool
}.

Record Prompt : Type := {
  pr_Name : string;
  pr_Description : string;
  pr_Arguments : list PromptArgument
}.

Record PromptMessage : Type := { pm_Role : string; pm_Content : Content }.

Record ListToolsResponse : Type := { ltr_Tools : list Tool }.
Record CallToolResponse : Type := {
  ctr_Content : list Content;
  ctr_IsError : bool
}.
Record ListResourcesResponse : Type := { lrr_Resources : list Resource }.
Record ReadResourceResponse : Type := { rrr_Contents : list Content }.
Record ListPromptsResponse : Type := { lpr_Prompts : list Prompt }.
Record GetPromptResponse : Type := {
  gpr_Description : string;
  gpr_Messages : list PromptMessage
}.

Record CallToolRequest : Type := {
  ctq_Name : string;
  ctq_Arguments : list (string * value)
}.
Record GetPromptRequest : Type := {
  gpq_Name : string;
  gpq_Arguments : list (string * value)
}.
Record ReadResourceRequest : Type := { rrq_URI : string }.

(** What the client puts in the [Params] field: one of its typed
    request structs, or nothing. *)
Inductive params : Type :=
| PNil
| PInitialize (r : InitializeRequest)
| PListTools
| PCallTool (r : CallToolRequest)
| PListResources
| PReadResource (r : ReadResourceRequest)
| PListPrompts
| PGetPrompt (r : GetPromptRequest)
| PRaw (v : value).

(** The JSON-RPC 2.0 envelope. *)
Record Message : Type := {
  JSONRPC : string;
  ID : value;
  Method : string;
  Params : params;
  Result : value;
  Error : option ErrorInfo
}.

Definition NewRequest (id : value) (method : string) (p : params) : Message :=
  {| JSONRPC := "2.0"; ID := id; Method := method; Params := p;
     Result := VNil; Error := None |}.

Definition NewNotification (method : string) (p : params) : Message :=
  {| JSONRPC := "2.0"; ID := VNil; Method := method; Params := p;
     Result := VNil; Error := None |}.

End Mcp.

(** ** The runtime around the code

    [Platform] fixes what Go leaves to the implementation; [Json] is the
    codec of [encoding/json], of which the client only uses the round
    trip of [parseResult]. *)

Class Platform : Type := {
  unrepresentable : float64 -> Z
}.

Class Json : Type := {
  Marshal : Mcp.value -> error + string
}.

Class Unmarshal (T : Type) : Type := {
  unmarshal : string -> error + T
}.

(** ** Transports ([pkg/transport]) *)

Module Transport.

(** *** The interface

    [W] is everything outside the client: the transport object and the
    peer, the network and the clock behind it.  A method takes the
    world before the call and returns the world after it.  [Receive]
    takes no context: it returns when a message has arrived or the
    transport reports an error, which the WebSocket transport does
    after a time of its own, while the TCP and STDIO transports read
    with no deadline.  [None] is a call that does not return, its peer
    sending nothing.  [GetReader] and [GetWriter] are not used by the
    client and are left out. *)
Class Transport (W Ctx : Type) : Type := {
  Connect : Ctx -> W -> option error * W;
  Close : W -> option error * W;
  Send : Mcp.Message -> W -> option error * W;
  Receive : W -> option ((error + Mcp.Message) * W);
  IsConnected : W -> bool
}.

(** [context.WithTimeout] derives a context at the present instant;
    [Done] tells whether the context's channel is ready at the present
    instant. *)
Class Clock (W Ctx : Type) : Type := {
  WithTimeout : Ctx -> Z -> W -> Ctx;
  Done : Ctx -> W -> bool
}.

(** *** The operating system under the concrete transports

    A handle names a pipe, a socket, a process or a channel.  Every
    call the [Close] paths make goes through [sys], which answers with
    the call's error and is recorded, in order, in [calls]. *)
Definition handle : Type := nat.

Inductive syscall : Type :=
| PipeClose (h : handle)
| ProcessKill (p : handle)
| CmdWait (c : handle)
| ConnClose (h : handle)
| ChanClose (ch : handle)
| WsWriteClose (h : handle)
| WsConnClose (h : handle).

Class OS (K : Type) : Type := {
  sys : syscall -> K -> option error * K
}.

Record Kernel (K : Type) : Type := {
  kernel : K;
  calls : list syscall
}.
Arguments kernel {K} _.
Arguments calls {K} _.

Definition call {K} `{OS K} (c : syscall) (k : Kernel K)
  : option error * Kernel K :=
  let (r, k') := sys c (kernel k) in
  (r, {| kernel := k'; calls := calls k ++ [c] |}).

(** *** TCP *)

Record TCPTransport : Type := {
  tcp_host : string;
  tcp_port : Z;
  tcp_conn : option handle;
  tcp_reader : option handle;
  tcp_writer : option handle;
  tcp_connected : bool;
  tcp_timeout : Z
}.

Definition second : Z := 1000000000.

Definition NewTCPTransport (host : string) (port : Z) : TCPTransport :=
  {| tcp_host := host; tcp_port := port; tcp_conn := None;
     tcp_reader := None; tcp_writer := None; tcp_connected := false;
     tcp_timeout := 30 * second |}.

Definition TCPClose {K} `{OS K} (t : TCPTransport) (k : Kernel K)
  : option error * (TCPTransport * Kernel K) :=
  match tcp_connected t, tcp_conn t with
  | true, Some conn =>
      let (err, k') := call (ConnClose conn) k in
      (err, ({| tcp_host := tcp_host t; tcp_port := tcp_port t;
                tcp_conn := None; tcp_reader := None; tcp_writer := None;
                tcp_connected := false; tcp_timeout := tcp_timeout t |}, k'))
  | _, _ => (None, (t, k))
  end.

(** *** STDIO (process pipes) *)

(** [exec.Cmd]: the command's own handle and, once started, its
    [Process]. *)
Record Cmd : Type := {
  cmd_handle : handle;
  cmd_Process : option handle
}.

Record StdioTransport : Type := {
  stdio_command : string;
  stdio_args : list string;
  stdio_cmd : option Cmd;
  stdio_stdin : option handle;
  stdio_stdout : option handle;
  stdio_stderr : option handle;
  stdio_reader : option handle;
  stdio_writer : option handle;
  stdio_connected : bool
}.

Definition NewStdioTransport (command : string) (args : list string)
  : StdioTransport :=
  {| stdio_command := command; stdio_args := args; stdio_cmd := None;
     stdio_stdin := None; stdio_stdout := None; stdio_stderr := None;
     stdio_reader := None; stdio_writer := None;
     stdio_connected := false |}.

(** The text of an error, as [Error()] returns it. *)
Fixpoint error_text (e : error) : string :=
  match e with
  | ErrNew msg => msg
  | ErrWrap msg cause => (msg ++ ": " ++ error_text cause)%string
  end.

(** [%v] of a slice of errors: the texts between brackets, separated
    by one space. *)
Fixpoint join_texts (errs : list error) : string :=
  match errs with
  | [] => ""
  | [e] => error_text e
  | e :: rest => (error_text e ++ " " ++ join_texts rest)%string
  end.

Definition errors_during_close (errs : list error) : error :=
  ErrNew ("errors during close: " ++ "[" ++ join_texts errs ++ "]")%string.

(** [if h != nil { if err := h.Close(); err != nil { errs = append(errs, err) } }] *)
Definition close_pipe {K} `{OS K} (h : option handle)
    (errs : list error) (k : Kernel K) : list error * Kernel K :=
  match h with
  | None => (errs, k)
  | Some p =>
      let (err, k') := call (PipeClose p) k in
      (match err with Some e => errs ++ [e] | None => errs end, k')
  end.

Definition StdioClose {K} `{OS K} (s : StdioTransport) (k : Kernel K)
  : option error * (StdioTransport * Kernel K) :=
  if negb (stdio_connected s) then (None, (s, k))
  else
    let errs := [] in
    let (errs, k) := close_pipe (stdio_stdin s) errs k in
    let (errs, k) := close_pipe (stdio_stdout s) errs k in
    let (errs, k) := close_pipe (stdio_stderr s) errs k in
    let (errs, k) :=
      match stdio_cmd s with
      | Some {| cmd_handle := c; cmd_Process := Some p |} =>
          let (err, k) := call (ProcessKill p) k in
          let errs := match err with Some e => errs ++ [e] | None => errs end in
          let (_, k) := call (CmdWait c) k in
          (errs, k)
      | _ => (errs, k)
      end in
    let s' := {| stdio_command := stdio_command s;
                 stdio_args := stdio_args s; stdio_cmd := None;
                 stdio_stdin := None; stdio_stdout := None;
                 stdio_stderr := None; stdio_reader := None;
                 stdio_writer := None; stdio_connected := false |} in
    match errs with
    | [] => (None, (s', k))
    | _ :: _ => (Some (errors_during_close errs), (s', k))
    end.

(** *** WebSocket *)

Record WebSocketTransport : Type := {
  ws_url : string;
  ws_conn : option handle;
  ws_connected : bool;
  ws_timeout : Z;
  ws_readChan : handle;
  ws_writeChan : handle;
  ws_stopChan : handle;
  ws_errorChan : handle
}.

(** [make] allocates the four channels; their handles come from the
    runtime. *)
Definition NewWebSocketTransport (wsURL : string)
    (readChan writeChan stopChan errorChan : handle) : WebSocketTransport :=
  {| ws_url := wsURL; ws_conn := None; ws_connected := false;
     ws_timeout := 30 * second; ws_readChan := readChan;
     ws_writeChan := writeChan; ws_stopChan := stopChan;
     ws_errorChan := errorChan |}.

(** [close(w.stopChan)] panics when the channel is already closed: the
    runtime reports it as the error of [ChanClose], and the model
    turns it into [None] (no return). *)
Definition WebSocketClose {K} `{OS K} (w : WebSocketTransport) (k : Kernel K)
  : option (option error * (WebSocketTransport * Kernel K)) :=
  match ws_connected w, ws_conn w with
  | true, Some conn =>
      let (panic, k) := call (ChanClose (ws_stopChan w)) k in
      match panic with
      | Some _ => None
      | None =>
          let (_, k) := call (WsWriteClose conn) k in
          let (err, k) := call (WsConnClose conn) k in
          Some (err, ({| ws_url := ws_url w; ws_conn := None;
                         ws_connected := false; ws_timeout := ws_timeout w;
                         ws_readChan := ws_readChan w;
                         ws_writeChan := ws_writeChan w;
                         ws_stopChan := ws_stopChan w;
                         ws_errorChan := ws_errorChan w |}, k))
      end
  | _, _ => Some (None, (w, k))
  end.

(** The three variants behind the one interface. *)
Inductive Variant : Type :=
| TCP (t : TCPTransport)
| Stdio (s : StdioTransport)
| WebSocket (w : WebSocketTransport).

Definition VariantClose {K} `{OS K} (v : Variant) (k : Kernel K)
  : option (option error * (Variant * Kernel K)) :=
  match v with
  | TCP t => let '(e, (t', k')) := TCPClose t k in Some (e, (TCP t', k'))
  | Stdio s => let '(e, (s', k')) := StdioClose s k in Some (e, (Stdio s', k'))
  | WebSocket w =>
      match WebSocketClose w k with
      | Some (e, (w', k')) => Some (e, (WebSocket w', k'))
      | None => None
      end
  end.

Definition VariantIsConnected (v : Variant) : bool :=
  match v with
  | TCP t => tcp_connected t
  | Stdio s => stdio_connected s
  | WebSocket w => ws_connected w
  end.

End Transport.

(** ** Protocol client ([pkg/client]) *)

Module Client.
Import Mcp.

Definition ErrNotConnected : error := ErrNew "client not connected".
Definition ErrNotInitialized : error := ErrNew "client not initialized".

(** The fields of [Client] other than the transport (which lives in
    the world), the mutex and the logger. *)
Record Client : Type := {
  serverInfo : option ServerInfo;
  serverCapabilities : option ServerCapabilities;
  connected : bool;
  initialized : bool;
  requestID : Z;
  timeout : Z
}.

Record ClientConfig : Type := {
  cfg_Name : string;
  cfg_Version : string;
  cfg_Timeout : Z
}.

Definition NewClient (config : ClientConfig) : Client :=
  {| serverInfo := None; serverCapabilities := None;
     connected := false; initialized := false; requestID := 0;
     timeout := if cfg_Timeout config =? 0 then 30 * Transport.second
                else cfg_Timeout config |}.

(** Every call the client makes on its transport, with what the
    transport answered, in the order of the calls. *)
Inductive Event : Type :=
| EvConnect (r : option error)
| EvClose (r : option error)
| EvSend (m : Message) (r : option error)
| EvReceive (r : error + Message).

Record State (W : Type) : Type := {
  client : Client;
  world : W;
  history : list Event
}.
Arguments client {W} _.
Arguments world {W} _.
Arguments history {W} _.

(** How a call ends: with a value, with an error, or not within the
    number of turns of the receive loop the run was given, which is
    also how a call ends that sits in a [Receive] that does not
    return. *)
Inductive outcome (A : Type) : Type :=
| Ok (a : A)
| Fail (e : error)
| Blocked.
Arguments Ok {A} _.
Arguments Fail {A} _.
Arguments Blocked {A}.

Definition set_flags (c : Client) (conn init : bool) : Client :=
  {| serverInfo := serverInfo c;
     serverCapabilities := serverCapabilities c;
     connected := conn; initialized := init;
     requestID := requestID c; timeout := timeout c |}.

(** [isMatchingID]: the type switch over the identifier of a
    response. *)
Definition isMatchingID `{Platform} (responseID : value) (requestID : Z)
  : bool :=
  match responseID with
  | VNil => false
  | VInt64 id => id =? requestID
  | VFloat64 id => float64_to_int64 unrepresentable id =? requestID
  | VInt id => id =? requestID
  | VString id =>
      match Strconv.ParseInt id with
      | Strconv.POk parsedID => parsedID =? requestID
      | _ => false
      end
  | _ => false
  end.

(** [parseResult]: the result goes through the codec and back. *)
Definition parseResult `{Json} {T} `{Unmarshal T} (result : value)
  : error + T :=
  match result with
  | VNil => inl (ErrNew "result is nil")
  | _ =>
      match Marshal result with
      | inl err => inl (ErrWrap "failed to marshal result" err)
      | inr jsonData =>
          match unmarshal jsonData with
          | inl err => inl (ErrWrap "failed to unmarshal result" err)
          | inr target => inr target
          end
      end
  end.

Section Operations.

Context {W Ctx : Type}.
Context `{Transport.Transport W Ctx} `{Transport.Clock W Ctx}.
Context `{Platform} `{Json}.
Context `{Unmarshal InitializeResponse} `{Unmarshal ListToolsResponse}
        `{Unmarshal CallToolResponse} `{Unmarshal ListResourcesResponse}
        `{Unmarshal ReadResourceResponse} `{Unmarshal ListPromptsResponse}
        `{Unmarshal GetPromptResponse}.

Definition with_client (s : State W) (c : Client) : State W :=
  {| client := c; world := world s; history := history s |}.

Definition observed (s : State W) (w : W) (ev : Event) : State W :=
  {| client := client s; world := w; history := history s ++ [ev] |}.

Definition Connect (ctx : Ctx) (s : State W) : outcome unit * State W :=
  if connected (client s) then (Ok tt, s)
  else
    let (r, w) := Transport.Connect ctx (world s) in
    let s := observed s w (EvConnect r) in
    match r with
    | Some err => (Fail (ErrWrap "failed to connect transport" err), s)
    | None =>
        (Ok tt, with_client s (set_flags (client s) true
                                 (initialized (client s))))
    end.

Definition IsConnected (s : State W) : bool := connected (client s).

Definition IsInitialized (s : State W) : bool := initialized (client s).

Definition GetServerInfo (s : State W) : option ServerInfo :=
  serverInfo (client s).

Definition GetServerCapabilities (s : State W)
  : option ServerCapabilities :=
  serverCapabilities (client s).

Definition Disconnect (s : State W) : option error * State W :=
  if negb (connected (client s)) then (None, s)
  else
    let (err, w) := Transport.Close (world s) in
    let s := observed s w (EvClose err) in
    (err, with_client s
            {| serverInfo := None; serverCapabilities := None;
               connected := false; initialized := false;
               requestID := requestID (client s);
               timeout := timeout (client s) |}).

Definition CheckConnection (s : State W) : option error * State W :=
  if negb (Transport.IsConnected (world s)) then
    (Some (ErrNew "transport disconnected"),
     with_client s (set_flags (client s) false false))
  else (None, s).

(** The receive loop of [sendRequest].  One unit of [fuel] is one
    turn of the loop; [handleMessage] only logs.  The context is looked
    at at the start of a turn only: the [default] branch of the
    [select] calls [Receive] and waits for it. *)
Fixpoint receiveLoop (fuel : nat) (responseCtx : Ctx) (requestID : Z)
    (s : State W) : outcome Message * State W :=
  match fuel with
  | O => (Blocked, s)
  | S fuel' =>
      if Transport.Done responseCtx (world s) then
        (Fail (ErrNew "request timeout"), s)
      else
        match Transport.Receive (world s) with
        | None => (Blocked, s)
        | Some (r, w) =>
            let s := observed s w (EvReceive r) in
            match r with
            | inl err =>
                (Fail (ErrWrap "failed to receive response" err),
                 with_client s (set_flags (client s) false false))
            | inr response =>
                if isMatchingID (ID response) requestID then (Ok response, s)
                else receiveLoop fuel' responseCtx requestID s
            end
        end
  end.

(** [atomic.AddInt64(&c.requestID, 1)] *)
Definition nextRequestID (s : State W) : Z * State W :=
  let id := wrap64 (requestID (client s) + 1) in
  (id, with_client s
         {| serverInfo := serverInfo (client s);
            serverCapabilities := serverCapabilities (client s);
            connected := connected (client s);
            initialized := initialized (client s);
            requestID := id; timeout := timeout (client s) |}).

Definition sendRequest (fuel : nat) (ctx : Ctx) (method : string)
    (p : params) (s : State W) : outcome Message * State W :=
  let (requestID, s) := nextRequestID s in
  let request := NewRequest (VInt64 requestID) method p in
  if negb (Transport.IsConnected (world s)) then
    (Fail (ErrNew "transport disconnected"), s)
  else
    let (r, w) := Transport.Send request (world s) in
    let s := observed s w (EvSend request r) in
    match r with
    | Some err =>
        (Fail (ErrWrap "failed to send request" err),
         with_client s (set_flags (client s) false false))
    | None =>
        let responseCtx :=
          Transport.WithTimeout ctx (timeout (client s)) (world s) in
        receiveLoop fuel responseCtx requestID s
    end.

(** The tail shared by the text of every operation: reject a
    response carrying an error object, then decode the result. *)
Definition decode {T} `{Unmarshal T} (what : string) (response : Message)
  : error + T :=
  match Error response with
  | Some e => inl (ErrNew (what ++ " error: " ++ ei_Message e)%string)
  | None =>
      match parseResult (Result response) with
      | inl err =>
          inl (ErrWrap ("failed to parse " ++ what ++ " response")%string
                 err)
      | inr t => inr t
      end
  end.

(** [Initialize] up to the end of its critical section: the guard,
    the [initialize] round trip, and the assignments made under the
    lock. *)
Definition initializeHandshake (fuel : nat) (ctx : Ctx)
    (clientInfo : ClientInfo) (s : State W) : outcome unit * State W :=
  if negb (IsConnected s) then (Fail ErrNotConnected, s)
  else
    let request :=
      {| ireq_ProtocolVersion := Version;
         ireq_Capabilities :=
           {| cc_Experimental := []; cc_Sampling := Some tt |};
         ireq_ClientInfo := clientInfo |} in
    match sendRequest fuel ctx "initialize" (PInitialize request) s with
    | (Blocked, s) => (Blocked, s)
    | (Fail err, s) => (Fail (ErrWrap "initialize request failed" err), s)
    | (Ok response, s) =>
        match decode "initialize" response with
        | inl err => (Fail err, s)
        | inr initResponse =>
            (Ok tt,
             with_client s
               {| serverInfo := Some (ires_ServerInfo initResponse);
                  serverCapabilities :=
                    Some (ires_Capabilities initResponse);
                  connected := connected (client s);
                  initialized := true;
                  requestID := requestID (client s);
                  timeout := timeout (client s) |})
        end
    end.

Definition initializedNotification : Message :=
  NewNotification "notifications/initialized" PNil.

(** The rest of [Initialize]: the one-way notification. *)
Definition sendInitialized (s : State W) : outcome unit * State W :=
  let notification := initializedNotification in
  let (r, w) := Transport.Send notification (world s) in
  let s := observed s w (EvSend notification r) in
  match r with
  | Some err =>
      (Fail (ErrWrap "failed to send initialized notification" err), s)
  | None => (Ok tt, s)
  end.

Definition Initialize (fuel : nat) (ctx : Ctx) (clientInfo : ClientInfo)
    (s : State W) : outcome unit * State W :=
  match initializeHandshake fuel ctx clientInfo s with
  | (Ok tt, s) => sendInitialized s
  | (r, s) => (r, s)
  end.

(** The body shared by the text of the operations that take no
    further precaution: guard, round trip, decode. *)
Definition roundTrip {T R} `{Unmarshal T} (fuel : nat) (ctx : Ctx)
    (what method : string) (p : params) (proj : T -> R) (s : State W)
  : outcome R * State W :=
  match sendRequest fuel ctx method p s with
  | (Blocked, s) => (Blocked, s)
  | (Fail err, s) =>
      (Fail (ErrWrap (what ++ " request failed")%string err), s)
  | (Ok response, s) =>
      match decode what response with
      | inl err => (Fail err, s)
      | inr t => (Ok (proj t), s)
      end
  end.

Definition ListTools (fuel : nat) (ctx : Ctx) (s : State W)
  : outcome (list Tool) * State W :=
  if negb (IsInitialized s) then
    (Fail (ErrNew "client not initialized"), s)
  else roundTrip fuel ctx "list tools" "tools/list" PListTools
         ltr_Tools s.

Definition CallTool (fuel : nat) (ctx : Ctx) (name : string)
    (arguments : list (string * value)) (s : State W)
  : outcome CallToolResponse * State W :=
  if negb (IsInitialized s) then
    (Fail (ErrNew "client not initialized"), s)
  else
    match CheckConnection s with
    | (Some err, s) => (Fail (ErrWrap "connection check failed" err), s)
    | (None, s) =>
        roundTrip fuel ctx "call tool" "tools/call"
          (PCallTool {| ctq_Name := name; ctq_Arguments := arguments |})
          (fun r => r) s
    end.

Definition ListResources (fuel : nat) (ctx : Ctx) (s : State W)
  : outcome (list Resource) * State W :=
  if negb (IsInitialized s) then
    (Fail (ErrNew "client not initialized"), s)
  else roundTrip fuel ctx "list resources" "resources/list"
         PListResources lrr_Resources s.

Definition ListPrompts (fuel : nat) (ctx : Ctx) (s : State W)
  : outcome (list Prompt) * State W :=
  if negb (IsInitialized s) then
    (Fail (ErrNew "client not initialized"), s)
  else roundTrip fuel ctx "list prompts" "prompts/list" PListPrompts
         lpr_Prompts s.

Definition GetPrompt (fuel : nat) (ctx : Ctx) (name : string)
    (arguments : list (string * value)) (s : State W)
  : outcome GetPromptResponse * State W :=
  if negb (IsInitialized s) then
    (Fail (ErrNew "client not initialized"), s)
  else roundTrip fuel ctx "get prompt" "prompts/get"
         (PGetPrompt {| gpq_Name := name; gpq_Arguments := arguments |})
         (fun r => r) s.

Definition ReadResource (fuel : nat) (ctx : Ctx) (uri : string)
    (s : State W) : outcome ReadResourceResponse * State W :=
  if negb (IsInitialized s) then
    (Fail (ErrNew "client not initialized"), s)
  else roundTrip fuel ctx "read resource" "resources/read"
         (PReadResource {| rrq_URI := uri |}) (fun r => r) s.

(** *** The operations as one family

    [Operation] names a call of the public interface that performs a
    request, with its arguments; [run] dispatches it and keeps of
    the value only that there is one. *)
Inductive Operation : Type :=
| OpInitialize (clientInfo : ClientInfo)
| OpListTools
| OpCallTool (name : string) (arguments : list (string * value))
| OpListResources
| OpReadResource (uri : string)
| OpListPrompts
| OpGetPrompt (name : string) (arguments : list (string * value)).

Definition erase {A} (r : outcome A * State W) : outcome unit * State W :=
  match r with
  | (Ok _, s) => (Ok tt, s)
  | (Fail e, s) => (Fail e, s)
  | (Blocked, s) => (Blocked, s)
  end.

Definition run (op : Operation) (fuel : nat) (ctx : Ctx) (s : State W)
  : outcome unit * State W :=
  match op with
  | OpInitialize clientInfo => Initialize fuel ctx clientInfo s
  | OpListTools => erase (ListTools fuel ctx s)
  | OpCallTool name arguments => erase (CallTool fuel ctx name arguments s)
  | OpListResources => erase (ListResources fuel ctx s)
  | OpReadResource uri => erase (ReadResource fuel ctx uri s)
  | OpListPrompts => erase (ListPrompts fuel ctx s)
  | OpGetPrompt name arguments =>
      erase (GetPrompt fuel ctx name arguments s)
  end.

(** The six operations that need an initialized client. *)
Definition needs_initialized (op : Operation) : bool :=
  match op with
  | OpInitialize _ => false
  | _ => true
  end.

(** A transport call of a request that failed: the [Send] of a
    message carrying an identifier, or a [Receive]. *)
Definition request_io_failed (ev : Event) : bool :=
  match ev with
  | EvSend m (Some _) =>
      match ID m with VNil => false | _ => true end
  | EvReceive (inl _) => true
  | _ => false
  end.

(** The events a call added to the history it started from. *)
Definition added (s s' : State W) : list Event :=
  skipn (List.length (history s)) (history s').

(** A sequence of requests issued one after the other through one
    client, with the identifier each was assigned; a request that
    does not return ends the sequence. *)
Fixpoint issue (fuel : nat) (ctx : Ctx) (reqs : list (string * params))
    (s : State W) : list Z * State W :=
  match reqs with
  | [] => ([], s)
  | (method, p) :: rest =>
      let id := fst (nextRequestID s) in
      match sendRequest fuel ctx method p s with
      | (Blocked, s) => ([id], s)
      | (_, s) =>
          let (ids, s) := issue fuel ctx rest s in
          (id :: ids, s)
      end
  end.

(** The prefix under which an operation reports that its request
    failed, and the error it returns when the wait for the response
    expired. *)
Definition request_failed_message (op : Operation) : string :=
  match op with
  | OpInitialize _ => "initialize request failed"
  | OpListTools => "list tools request failed"
  | OpCallTool _ _ => "call tool request failed"
  | OpListResources => "list resources request failed"
  | OpReadResource _ => "read resource request failed"
  | OpListPrompts => "list prompts request failed"
  | OpGetPrompt _ _ => "get prompt request failed"
  end.


End Operations.

End Client.

(** ** Discovery engine ([pkg/discovery]) *)

Module Discovery.

(** What the engine asks of the machine it runs on: a TCP dial (the
    connection, when there is one, is closed at once), and the two
    [docker] commands.  [K] is the state of that machine. *)
Class Host (K : Type) : Type := {
  DialTimeout : string -> Z -> K -> bool * K;
  DockerVersion : K -> bool * K;
  DockerPs : K -> option string * K
}.

(** The two functions of Go's [strings] whose result depends on
    Unicode tables. *)
Class Strings : Type := {
  ToLower : string -> string;
  TrimSpace : string -> string
}.

(** [strings.Split] for a separator of one byte. *)
Fixpoint Split (s : string) (sep : ascii) : list string :=
  match s with
  | EmptyString => [EmptyString]
  | String c rest =>
      if Ascii.eqb c sep then EmptyString :: Split rest sep
      else
        match Split rest sep with
        | [] => [String c EmptyString]
        | h :: t => String c h :: t
        end
  end.

(** [strings.Contains] *)
Fixpoint Contains (s substr : string) : bool :=
  if String.prefix substr s then true
  else
    match s with
    | EmptyString => false
    | String _ rest => Contains rest substr
    end.

Record ServerInfo : Type := {
  Name : string;
  Type_ : string;
  Address : string;
  Port : Z;
  Transport : Transport.Variant;
  Description : string
}.

Record Discovery : Type := { timeout : Z }.

Definition NewDiscovery : Discovery :=
  {| timeout := 5 * Transport.second |}.

Record DockerContainer : Type := {
  dc_ID : string;
  dc_Name : string;
  dc_Image : string;
  dc_Ports : list string
}.

Definition newline : ascii := ascii_of_nat 10.
Definition tab : ascii := ascii_of_nat 9.
Definition comma : ascii := ascii_of_nat 44.

Section Engine.

Context {K : Type} `{Host K} `{Strings}.

Definition isPortOpen (d : Discovery) (host : string) (port : Z) (k : K)
  : bool * K :=
  let address := (host ++ ":" ++ Strconv.FormatInt port)%string in
  DialTimeout address (timeout d) k.

Definition tcpServer (host : string) (port : Z) : ServerInfo :=
  {| Name := ("TCP Server " ++ host ++ ":" ++ Strconv.FormatInt port)%string;
     Type_ := "tcp";
     Address := host;
     Port := port;
     Transport := Transport.TCP (Transport.NewTCPTransport host port);
     Description :=
       ("MCP server on TCP " ++ host ++ ":"
          ++ Strconv.FormatInt port)%string |}.

(** The loop of [DiscoverTCPServers], with [servers] the slice built
    so far. *)
Fixpoint scanPorts (d : Discovery) (host : string) (ports : list Z)
    (servers : list ServerInfo) (k : K) : list ServerInfo * K :=
  match ports with
  | [] => (servers, k)
  | port :: rest =>
      let (open, k) := isPortOpen d host port k in
      if open then scanPorts d host rest (servers ++ [tcpServer host port]) k
      else scanPorts d host rest servers k
  end.

Definition DiscoverTCPServers (d : Discovery) (host : string)
    (ports : list Z) (k : K) : list ServerInfo * K :=
  scanPorts d host ports [] k.

Definition isDockerAvailable (k : K) : bool * K := DockerVersion k.

(** The loop of [getDockerContainers] over the lines of the output. *)
Fixpoint parseLines (lines : list string)
    (containers : list DockerContainer) : list DockerContainer :=
  match lines with
  | [] => containers
  | line :: rest =>
      let line := TrimSpace line in
      match line with
      | EmptyString => parseLines rest containers
      | _ =>
          match Split line tab with
          | id :: name :: image :: ports :: _ =>
              parseLines rest
                (containers ++
                   [{| dc_ID := id; dc_Name := name; dc_Image := image;
                       dc_Ports := Split ports comma |}])
          | _ => parseLines rest containers
          end
      end
  end.

Definition getDockerContainers (k : K) : list DockerContainer * K :=
  let (output, k) := DockerPs k in
  match output with
  | None => ([], k)
  | Some out => (parseLines (Split out newline) [], k)
  end.

Definition mcpKeywords : list string :=
  ["mcp"; "model-context-protocol"; "context"].

Definition isMCPContainer (container : DockerContainer) : bool :=
  let name := ToLower (dc_Name container) in
  let image := ToLower (dc_Image container) in
  if existsb (fun keyword => Contains name keyword || Contains image keyword)
       mcpKeywords
  then true
  else existsb (fun portStr => Contains portStr "8811"
                               || Contains portStr "3000")
         (dc_Ports container).

Definition createDockerTransport (container : DockerContainer)
  : Transport.Variant :=
  Transport.Stdio
    (Transport.NewStdioTransport "docker"
       ["exec"; "-i"; dc_ID container; "sh"]).

Definition dockerServer (container : DockerContainer) : ServerInfo :=
  {| Name := ("Docker Container " ++ dc_Name container)%string;
     Type_ := "docker";
     Address := dc_ID container;
     Port := 0;
     Transport := createDockerTransport container;
     Description :=
       ("MCP server in Docker container " ++ dc_Name container)%string |}.

Fixpoint scanContainers (containers : list DockerContainer)
    (servers : list ServerInfo) : list ServerInfo :=
  match containers with
  | [] => servers
  | container :: rest =>
      if isMCPContainer container
      then scanContainers rest (servers ++ [dockerServer container])
      else scanContainers rest servers
  end.

Definition DiscoverDockerServers (d : Discovery) (k : K)
  : list ServerInfo * K :=
  let (available, k) := isDockerAvailable k in
  if negb available then ([], k)
  else
    let (containers, k) := getDockerContainers k in
    (scanContainers containers [], k).

Definition CreateDockerMCPTransport (d : Discovery) : Transport.Variant :=
  Transport.TCP (Transport.NewTCPTransport "localhost" 8811).

Definition commonPorts : list Z :=
  [8811; 8080; 3000; 4000; 5000; 8000; 8888; 9000].

Definition DiscoverCommonPorts (d : Discovery) (host : string) (k : K)
  : list ServerInfo * K :=
  DiscoverTCPServers d host commonPorts k.

Definition dockerMCP (d : Discovery) : ServerInfo :=
  {| Name := "Docker MCP (Direct TCP)";
     Type_ := "docker";
     Address := "localhost";
     Port := 8811;
     Transport := CreateDockerMCPTransport d;
     Description :=
       "Standard Docker MCP server using direct TCP connection to localhost:8811" |}.

Definition DiscoverAll (d : Discovery) (host : string) (k : K)
  : list ServerInfo * K :=
  let allServers := [] in
  let (tcpServers, k) := DiscoverCommonPorts d host k in
  let allServers := allServers ++ tcpServers in
  let (dockerServers, k) := DiscoverDockerServers d k in
  let allServers := allServers ++ dockerServers in
  let allServers := allServers ++ [dockerMCP d] in
  (allServers, k).

End Engine.

End Discovery.

(** ** A scripted environment

    Concrete instances of the interfaces above, on which the functions
    can be run: a peer that answers from a script and sends nothing
    once the script is over, a clock that advances by one tick at each
    [Receive] that returns, an operating system and a host that answer
    from a table. *)

Module Mock.
Import Mcp.

Record World : Type := {
  up : bool;
  sends : list (option error);
  inbox : list (error + Message);
  now : Z
}.

(** A context is its deadline, if it has one. *)
Definition Ctx : Type := option Z.

Definition mockConnect (ctx : Ctx) (w : World) : option error * World :=
  (None, {| up := true; sends := sends w; inbox := inbox w; now := now w |}).

Definition mockClose (w : World) : option error * World :=
  (None, {| up := false; sends := sends w; inbox := inbox w; now := now w |}).

Definition mockSend (m : Message) (w : World) : option error * World :=
  match sends w with
  | [] => (None, w)
  | r :: rest =>
      (r, {| up := up w; sends := rest; inbox := inbox w; now := now w |})
  end.

Definition mockReceive (w : World) : option ((error + Message) * World) :=
  match inbox w with
  | [] => None
  | r :: rest =>
      Some (r, {| up := up w; sends := sends w; inbox := rest;
                  now := now w + 1 |})
  end.

#[export] Instance transport : Transport.Transport World Ctx := {
  Connect := mockConnect;
  Close := mockClose;
  Send := mockSend;
  Receive := mockReceive;
  IsConnected := up
}.

#[export] Instance clock : Transport.Clock World Ctx := {
  WithTimeout ctx d w :=
    Some (match ctx with
          | Some deadline => Z.min deadline (now w + d)
          | None => now w + d
          end);
  Done ctx w :=
    match ctx with
    | Some deadline => deadline <=? now w
    | None => false
    end
}.

(** The answer of the amd64 conversion instruction. *)
#[export] Instance amd64 : Platform := {
  unrepresentable _ := min_int64
}.

Definition demoServer : ServerInfo :=
  {| si_Name := "demo"; si_Version := "1.0.0" |}.

Definition demoCapabilities : ServerCapabilities :=
  {| sc_Experimental := []; sc_Logging := None; sc_Prompts := None;
     sc_Resources := None; sc_Tools := Some false |}.

(** A codec that reads every document as the same answer. *)
#[export] Instance json : Json := { Marshal _ := inr "{}" }.

#[export] Instance readInitialize : Unmarshal InitializeResponse := {
  unmarshal _ :=
    inr {| ires_ProtocolVersion := Version;
           ires_Capabilities := demoCapabilities;
           ires_ServerInfo := demoServer |}
}.
#[export] Instance readListTools : Unmarshal ListToolsResponse := {
  unmarshal _ := inr {| ltr_Tools := [] |}
}.
#[export] Instance readCallTool : Unmarshal CallToolResponse := {
  unmarshal _ := inr {| ctr_Content := []; ctr_IsError := false |}
}.
#[export] Instance readListResources : Unmarshal ListResourcesResponse := {
  unmarshal _ := inr {| lrr_Resources := [] |}
}.
#[export] Instance readReadResource : Unmarshal ReadResourceResponse := {
  unmarshal _ := inr {| rrr_Contents := [] |}
}.
#[export] Instance readListPrompts : Unmarshal ListPromptsResponse := {
  unmarshal _ := inr {| lpr_Prompts := [] |}
}.
#[export] Instance readGetPrompt : Unmarshal GetPromptResponse := {
  unmarshal _ := inr {| gpr_Description := ""; gpr_Messages := [] |}
}.

Definition config : Client.ClientConfig :=
  {| Client.cfg_Name := "test-client"; Client.cfg_Version := "1.0.0";
     Client.cfg_Timeout := 1 |}.

Definition start (w : World) : Client.State World :=
  {| Client.client := Client.NewClient config; Client.world := w;
     Client.history := [] |}.

(** A client that went through the handshake with [demoServer]. *)
Definition ready (w : World) : Client.State World :=
  {| Client.client :=
       {| Client.serverInfo := Some demoServer;
          Client.serverCapabilities := Some demoCapabilities;
          Client.connected := true; Client.initialized := true;
          Client.requestID := 1; Client.timeout := 1 |};
     Client.world := w; Client.history := [] |}.

Definition response (id : value) : Message :=
  {| JSONRPC := "2.0"; ID := id; Method := ""; Params := PNil;
     Result := VObject []; Error := None |}.

Definition notice : Message := NewNotification "notifications/progress" PNil.

Definition broken : error := ErrNew "broken pipe".

(** An operating system answering each call from a table. *)
Definition Table : Type := Transport.syscall -> option error.

#[export] Instance os : Transport.OS Table := {
  sys c k := (k c, k)
}.

Definition boot (t : Table) : Transport.Kernel Table :=
  {| Transport.kernel := t; Transport.calls := [] |}.

(** A child process with its three pipes and its handles. *)
Definition child : Transport.StdioTransport :=
  {| Transport.stdio_command := "echo"; Transport.stdio_args := ["hello"];
     Transport.stdio_cmd :=
       Some {| Transport.cmd_handle := 10%nat;
               Transport.cmd_Process := Some 11%nat |};
     Transport.stdio_stdin := Some 0%nat;
     Transport.stdio_stdout := Some 1%nat;
     Transport.stdio_stderr := Some 2%nat;
     Transport.stdio_reader := Some 1%nat;
     Transport.stdio_writer := Some 0%nat;
     Transport.stdio_connected := true |}.

(** A host given by the addresses that accept a connection and by what
    the [docker] commands print. *)
Record Machine : Type := {
  listening : list string;
  docker : bool;
  ps : option string
}.

#[export] Instance host : Discovery.Host Machine := {
  DialTimeout address _ k :=
    (existsb (String.eqb address) (listening k), k);
  DockerVersion k := (docker k, k);
  DockerPs k := (ps k, k)
}.

Definition lower (c : ascii) : ascii :=
  let n := nat_of_ascii c in
  if (Nat.leb 65 n && Nat.leb n 90)%bool then ascii_of_nat (n + 32) else c.

Fixpoint asciiToLower (s : string) : string :=
  match s with
  | EmptyString => EmptyString
  | String c rest => String (lower c) (asciiToLower rest)
  end.

Definition is_space (c : ascii) : bool :=
  let n := nat_of_ascii c in
  (Nat.eqb n 32 || (Nat.leb 9 n && Nat.leb n 13))%bool.

Fixpoint trimLeft (s : string) : string :=
  match s with
  | EmptyString => EmptyString
  | String c rest => if is_space c then trimLeft rest else s
  end.

Fixpoint trimRight (s : string) : string :=
  match s with
  | EmptyString => EmptyString
  | String c rest =>
      match trimRight rest with
      | EmptyString => if is_space c then EmptyString else String c EmptyString
      | rest' => String c rest'
      end
  end.

#[export] Instance asciiStrings : Discovery.Strings := {
  ToLower := asciiToLower;
  TrimSpace s := trimRight (trimLeft s)
}.

(** A host on which nothing listens and whose only container is a
    web server. *)
Definition quietPs : string :=
  String.concat (String Discovery.tab EmptyString)
    ["3f2a9c"; "web"; "nginx:latest"; "0.0.0.0:80->80/tcp"].

#[export] Instance quiet : Discovery.Host unit := {
  DialTimeout _ _ k := (false, k);
  DockerVersion k := (true, k);
  DockerPs k := (Some quietPs, k)
}.

(** Scripts of the peer used in the scenarios. *)
Definition sendFails : World :=
  {| up := true; sends := [Some broken]; inbox := []; now := 0 |}.

Definition silent : World :=
  {| up := true; sends := []; inbox := [inr notice; inr notice]; now := 0 |}.


Definition answers (id : value) : World :=
  {| up := true; sends := []; inbox := [inr (response id)]; now := 0 |}.

Definition connectedClient (w : World) : Client.State World :=
  {| Client.client :=
       Client.set_flags (Client.NewClient config) true false;
     Client.world := w; Client.history := [] |}.

Definition me : ClientInfo := {| ci_Name := "my-app"; ci_Version := "1.0.0" |}.

Definition waitFails : Table :=
  fun c => match c with
           | Transport.CmdWait _ => Some (ErrNew "signal: killed")
           | _ => None
           end.

Definition noFailure : Table := fun _ => None.

End Mock.

(** ** Vocabulary of the statements *)

(** The forms under which the wire can hand an integer identifier back:
    the native integers, a float standing for the same number, a decimal
    numeral of it. *)
Definition encodes (v : Mcp.value) (n : Z) : Prop :=
  v = Mcp.VInt64 n
  \/ v = Mcp.VInt n
  \/ (exists f q, v = Mcp.VFloat64 f /\ F2Q f = Some q /\ (q == inject_Z n)%Q)
  \/ (exists s, v = Mcp.VString s /\ Strconv.decimal_value s = Some n).

(** The float [n + 0.5], for [n] not negative. *)
Definition plus_half (n : Z) : float64 :=
  S754_finite false (Z.to_pos (2 * n + 1)) (-1).

(** The errors a step contributes to the list [Close] builds. *)
Definition collected (r : option error) : list error :=
  match r with
  | Some e => [e]
  | None => []
  end.

(** The calls [Close] has to make on a STDIO transport, in order: one
    per pipe that is set, then the kill and the wait when the process
    is set. *)
Definition close_steps (s : Transport.StdioTransport)
  : list Transport.syscall :=
  match Transport.stdio_stdin s with
  | Some h => [Transport.PipeClose h]
  | None => []
  end
  ++ match Transport.stdio_stdout s with
     | Some h => [Transport.PipeClose h]
     | None => []
     end
  ++ match Transport.stdio_stderr s with
     | Some h => [Transport.PipeClose h]
     | None => []
     end
  ++ match Transport.stdio_cmd s with
     | Some {| Transport.cmd_handle := c; Transport.cmd_Process := Some p |} =>
         [Transport.ProcessKill p; Transport.CmdWait c]
     | _ => []
     end.

(** A list of calls made one after the other, each with its answer. *)
Fixpoint answers_of {K : Type} `{Transport.OS K}
    (steps : list Transport.syscall) (k : K)
  : list (Transport.syscall * option error) * K :=
  match steps with
  | [] => ([], k)
  | c :: rest =>
      let (r, k1) := Transport.sys c k in
      let (answers, k2) := answers_of rest k1 in
      ((c, r) :: answers, k2)
  end.

(** The error of a step that [Close] keeps: any but the one of the
    wait. *)
Definition kept (a : Transport.syscall * option error) : list error :=
  match a with
  | (Transport.CmdWait _, _) => []
  | (_, r) => collected r
  end.

(** Whether the [initialized] notification, a message without an
    identifier, was handed to the transport. *)
Definition notification_sent (h : list Client.Event) : bool :=
  existsb (fun ev =>
             match ev with
             | Client.EvSend m _ =>
                 match Mcp.ID m with
                 | Mcp.VNil =>
                     String.eqb (Mcp.Method m) "notifications/initialized"
                 | _ => false
                 end
             | _ => false
             end) h.

(** An error built by wrapping a cause. *)
Definition wrapped (e : error) : Prop :=
  exists msg cause, e = ErrWrap msg cause.

(** What a call that performs one request does to the client, [c] being
    the client the call would leave if the transport did not fail: the
    history grows, by no notification, and either a transport call of
    the request failed, the call returns a wrapped error and both flags
    are cleared, or none failed, the client is [c] and the error, if
    any, is not a wrapped one. *)
Definition effect {W A : Type} (c : Client.Client)
    (s : Client.State W) (r : Client.outcome A) (s' : Client.State W) : Prop :=
  exists evs,
    Client.history s' = Client.history s ++ evs
    /\ notification_sent evs = false
    /\ ((existsb Client.request_io_failed evs = true
         /\ (exists e, r = Client.Fail e /\ wrapped e)
         /\ Client.client s' = Client.set_flags c false false)
        \/ (existsb Client.request_io_failed evs = false
            /\ Client.client s' = c
            /\ forall e, r = Client.Fail e -> wrapped e -> False)).

(** * Further code *)

(** ** Client builder ([pkg/client], builder) *)

Module Builder.

(** [ClientBuilder]; the logger of the configuration is left out. *)
Record ClientBuilder : Type := {
  transport : option Transport.Variant;
  config : Client.ClientConfig
}.

Definition NewClientBuilder : ClientBuilder :=
  {| transport := None;
     config := {| Client.cfg_Name := "mcp-client";
                  Client.cfg_Version := "1.0.0";
                  Client.cfg_Timeout := 30 * Transport.second |} |}.

(** The argument of [WithTransport] is an interface value: it may be
    nil. *)
Definition WithTransport (t : option Transport.Variant) (b : ClientBuilder)
  : ClientBuilder :=
  {| transport := t; config := config b |}.

Definition WithTCPTransport (host : string) (port : Z) (b : ClientBuilder)
  : ClientBuilder :=
  {| transport := Some (Transport.TCP (Transport.NewTCPTransport host port));
     config := config b |}.

Definition WithSTDIOTransport (command : string) (args : list string)
    (b : ClientBuilder) : ClientBuilder :=
  {| transport :=
       Some (Transport.Stdio (Transport.NewStdioTransport command args));
     config := config b |}.

(** The four handles are the channels [NewWebSocketTransport] makes. *)
Definition WithWebSocketTransport (url : string)
    (readChan writeChan stopChan errorChan : Transport.handle)
    (b : ClientBuilder) : ClientBuilder :=
  {| transport :=
       Some (Transport.WebSocket
               (Transport.NewWebSocketTransport url readChan writeChan
                  stopChan errorChan));
     config := config b |}.

Definition WithName (name : string) (b : ClientBuilder) : ClientBuilder :=
  {| transport := transport b;
     config := {| Client.cfg_Name := name;
                  Client.cfg_Version := Client.cfg_Version (config b);
                  Client.cfg_Timeout := Client.cfg_Timeout (config b) |} |}.

Definition WithVersion (version : string) (b : ClientBuilder)
  : ClientBuilder :=
  {| transport := transport b;
     config := {| Client.cfg_Name := Client.cfg_Name (config b);
                  Client.cfg_Version := version;
                  Client.cfg_Timeout := Client.cfg_Timeout (config b) |} |}.

Definition WithTimeout (timeout : Z) (b : ClientBuilder) : ClientBuilder :=
  {| transport := transport b;
     config := {| Client.cfg_Name := Client.cfg_Name (config b);
                  Client.cfg_Version := Client.cfg_Version (config b);
                  Client.cfg_Timeout := timeout |} |}.

(** [Build] stores the default transport in the builder when none was
    set, and hands the builder's transport and configuration to
    [NewClient]: the result is the builder after the call, the transport
    the client holds, and the client. *)
Definition Build (b : ClientBuilder)
  : ClientBuilder * (Transport.Variant * Client.Client) :=
  let t :=
    match transport b with
    | None => Transport.TCP (Transport.NewTCPTransport "localhost" 8811)
    | Some t => t
    end in
  ({| transport := Some t; config := config b |},
   (t, Client.NewClient (config b))).

Definition NewTCPClient (host : string) (port : Z)
  : Transport.Variant * Client.Client :=
  snd (Build (WithTCPTransport host port NewClientBuilder)).

Definition NewSTDIOClient (command : string) (args : list string)
  : Transport.Variant * Client.Client :=
  snd (Build (WithSTDIOTransport command args NewClientBuilder)).

Definition NewWebSocketClient (url : string)
    (readChan writeChan stopChan errorChan : Transport.handle)
  : Transport.Variant * Client.Client :=
  snd (Build (WithWebSocketTransport url readChan writeChan stopChan
                errorChan NewClientBuilder)).

(** A call of the fluent interface. *)
Inductive Setter : Type :=
| SetTransport (t : option Transport.Variant)
| SetTCP (host : string) (port : Z)
| SetSTDIO (command : string) (args : list string)
| SetWebSocket (url : string)
    (readChan writeChan stopChan errorChan : Transport.handle)
| SetName (name : string)
| SetVersion (version : string)
| SetTimeout (timeout : Z).

Definition apply (b : ClientBuilder) (c : Setter) : ClientBuilder :=
  match c with
  | SetTransport t => WithTransport t b
  | SetTCP host port => WithTCPTransport host port b
  | SetSTDIO command args => WithSTDIOTransport command args b
  | SetWebSocket url rc wc sc ec => WithWebSocketTransport url rc wc sc ec b
  | SetName name => WithName name b
  | SetVersion version => WithVersion version b
  | SetTimeout timeout => WithTimeout timeout b
  end.

(** A chain of calls on a new builder, from left to right. *)
Definition chain (calls : list Setter) : ClientBuilder :=
  fold_left apply calls NewClientBuilder.

End Builder.

(** ** The data path of the TCP and STDIO transports *)

Module Wire.
Import Transport.

(** The calls of [net], [os/exec] and [bufio] the two transports make.
    [K] is the state of the operating system, [Ctx] a context. *)
Class IO (K Ctx : Type) : Type := {
  DialContext : Ctx -> Z -> string -> K -> (error + handle) * K;
  CommandContext : Ctx -> string -> list string -> K -> handle * K;
  StdinPipe : handle -> K -> (error + handle) * K;
  StdoutPipe : handle -> K -> (error + handle) * K;
  StderrPipe : handle -> K -> (error + handle) * K;
  Start : handle -> K -> (error + handle) * K;
  Write : handle -> string -> K -> option error * K;
  Flush : handle -> K -> option error * K;
  ReadBytes : handle -> ascii -> K -> (error + string) * K
}.

(** [json.Marshal] and [json.Unmarshal] on a message. *)
Class Codec : Type := {
  MarshalMessage : Mcp.Message -> error + string;
  UnmarshalMessage : string -> error + Mcp.Message
}.

Definition newline : string := String (ascii_of_nat 10) EmptyString.

(** How a method ends: it returns, or it dereferences a nil reader or
    writer and panics. *)
Inductive ending (A : Type) : Type :=
| Returns (a : A)
| Panics.
Arguments Returns {A} _.
Arguments Panics {A}.

Section Methods.

Context {K Ctx : Type} `{IO K Ctx} `{Codec}.

(** *** TCP *)

Definition TCPConnect (ctx : Ctx) (t : TCPTransport) (k : K)
  : option error * (TCPTransport * K) :=
  if tcp_connected t then (None, (t, k))
  else
    let address :=
      (tcp_host t ++ ":" ++ Strconv.FormatInt (tcp_port t))%string in
    let (r, k) := DialContext ctx (tcp_timeout t) address k in
    match r with
    | inl err =>
        (Some (ErrWrap ("failed to connect to " ++ address)%string err), (t, k))
    | inr conn =>
        (None, ({| tcp_host := tcp_host t; tcp_port := tcp_port t;
                   tcp_conn := Some conn; tcp_reader := Some conn;
                   tcp_writer := Some conn; tcp_connected := true;
                   tcp_timeout := tcp_timeout t |}, k))
    end.

Definition TCPSend (message : Mcp.Message) (t : TCPTransport) (k : K)
  : ending (option error * K) :=
  if negb (tcp_connected t) then
    Returns (Some (ErrNew "transport not connected"), k)
  else
    match MarshalMessage message with
    | inl err => Returns (Some (ErrWrap "failed to marshal message" err), k)
    | inr data =>
        match tcp_writer t with
        | None => Panics
        | Some writer =>
            let (r, k) := Write writer (data ++ newline)%string k in
            match r with
            | Some err =>
                Returns (Some (ErrWrap "failed to write message" err), k)
            | None =>
                let (r, k) := Flush writer k in
                match r with
                | Some err =>
                    Returns (Some (ErrWrap "failed to flush message" err), k)
                | None => Returns (None, k)
                end
            end
        end
    end.

Definition TCPReceive (t : TCPTransport) (k : K)
  : ending ((error + Mcp.Message) * K) :=
  if negb (tcp_connected t) then
    Returns (inl (ErrNew "transport not connected"), k)
  else
    match tcp_reader t with
    | None => Panics
    | Some reader =>
        let (r, k) := ReadBytes reader (ascii_of_nat 10) k in
        match r with
        | inl err => Returns (inl (ErrWrap "failed to read message" err), k)
        | inr line =>
            match UnmarshalMessage line with
            | inl err =>
                Returns (inl (ErrWrap "failed to unmarshal message" err), k)
            | inr message => Returns (inr message, k)
            end
        end
    end.

Definition TCPIsConnected (t : TCPTransport) : bool := tcp_connected t.

Definition TCPSetTimeout (timeout : Z) (t : TCPTransport) : TCPTransport :=
  {| tcp_host := tcp_host t; tcp_port := tcp_port t; tcp_conn := tcp_conn t;
     tcp_reader := tcp_reader t; tcp_writer := tcp_writer t;
     tcp_connected := tcp_connected t; tcp_timeout := timeout |}.

(** *** STDIO *)

Definition with_pipes (s : StdioTransport) (cmd : option Cmd)
    (stdin stdout stderr : option handle) : StdioTransport :=
  {| stdio_command := stdio_command s; stdio_args := stdio_args s;
     stdio_cmd := cmd; stdio_stdin := stdin; stdio_stdout := stdout;
     stdio_stderr := stderr; stdio_reader := stdio_reader s;
     stdio_writer := stdio_writer s; stdio_connected := stdio_connected s |}.

(** [%v] of a slice of strings. *)
Definition show_args (args : list string) : string :=
  ("[" ++ String.concat " " args ++ "]")%string.

Definition StdioConnect (ctx : Ctx) (s : StdioTransport) (k : K)
  : option error * (StdioTransport * K) :=
  if stdio_connected s then (None, (s, k))
  else
    let (c, k) := CommandContext ctx (stdio_command s) (stdio_args s) k in
    let cmd := {| cmd_handle := c; cmd_Process := None |} in
    let s := with_pipes s (Some cmd) (stdio_stdin s) (stdio_stdout s)
               (stdio_stderr s) in
    let (r, k) := StdinPipe c k in
    match r with
    | inl err => (Some (ErrWrap "failed to create stdin pipe" err), (s, k))
    | inr stdin =>
        let s := with_pipes s (stdio_cmd s) (Some stdin) (stdio_stdout s)
                   (stdio_stderr s) in
        let (r, k) := StdoutPipe c k in
        match r with
        | inl err =>
            (Some (ErrWrap "failed to create stdout pipe" err), (s, k))
        | inr stdout =>
            let s := with_pipes s (stdio_cmd s) (stdio_stdin s) (Some stdout)
                       (stdio_stderr s) in
            let (r, k) := StderrPipe c k in
            match r with
            | inl err =>
                (Some (ErrWrap "failed to create stderr pipe" err), (s, k))
            | inr stderr =>
                let s := with_pipes s (stdio_cmd s) (stdio_stdin s)
                           (stdio_stdout s) (Some stderr) in
                let (r, k) := Start c k in
                match r with
                | inl err =>
                    (Some (ErrWrap
                             ("failed to start command '" ++ stdio_command s
                                ++ " " ++ show_args (stdio_args s) ++ "'")%string
                             err), (s, k))
                | inr process =>
                    (None,
                     ({| stdio_command := stdio_command s;
                         stdio_args := stdio_args s;
                         stdio_cmd :=
                           Some {| cmd_handle := c;
                                   cmd_Process := Some process |};
                         stdio_stdin := Some stdin;
                         stdio_stdout := Some stdout;
                         stdio_stderr := Some stderr;
                         stdio_reader := Some stdout;
                         stdio_writer := Some stdin;
                         stdio_connected := true |}, k))
                end
            end
        end
    end.

Definition StdioSend (message : Mcp.Message) (s : StdioTransport) (k : K)
  : ending (option error * K) :=
  if negb (stdio_connected s) then
    Returns (Some (ErrNew "transport not connected"), k)
  else
    match MarshalMessage message with
    | inl err => Returns (Some (ErrWrap "failed to marshal message" err), k)
    | inr data =>
        match stdio_writer s with
        | None => Panics
        | Some writer =>
            let (r, k) := Write writer (data ++ newline)%string k in
            match r with
            | Some err =>
                Returns (Some (ErrWrap "failed to write message" err), k)
            | None => Returns (Flush writer k)
            end
        end
    end.

Definition StdioReceive (s : StdioTransport) (k : K)
  : ending ((error + Mcp.Message) * K) :=
  if negb (stdio_connected s) then
    Returns (inl (ErrNew "transport not connected"), k)
  else
    match stdio_reader s with
    | None => Panics
    | Some reader =>
        let (r, k) := ReadBytes reader (ascii_of_nat 10) k in
        match r with
        | inl err => Returns (inl (ErrWrap "failed to read message" err), k)
        | inr line =>
            match UnmarshalMessage line with
            | inl err =>
                Returns (inl (ErrWrap "failed to unmarshal message" err), k)
            | inr message => Returns (inr message, k)
            end
        end
    end.

Definition StdioIsConnected (s : StdioTransport) : bool := stdio_connected s.

Definition GetCommand (s : StdioTransport) : string * list string :=
  (stdio_command s, stdio_args s).

End Methods.

(** *** A transport driven through its methods

    The calls a user can make on a transport, and their effect on the
    transport and on the operating system in turn.  [Close] is the one
    of [Transport], which keeps the list of its calls. *)
Inductive Call (Ctx : Type) : Type :=
| DoConnect (ctx : Ctx)
| DoClose
| DoSend (message : Mcp.Message)
| DoReceive.
Arguments DoConnect {Ctx} _.
Arguments DoClose {Ctx}.
Arguments DoSend {Ctx} _.
Arguments DoReceive {Ctx}.

Section Driving.

Context {K Ctx : Type} `{IO K Ctx} `{OS K} `{Codec}.

Definition on_kernel {A} (k : Kernel K) (r : A * K) : A * Kernel K :=
  (fst r, {| kernel := snd r; calls := calls k |}).

Definition stdioStep (c : Call Ctx) (s : StdioTransport) (k : Kernel K)
  : ending (StdioTransport * Kernel K) :=
  match c with
  | DoConnect ctx =>
      let '(_, (s, k')) := StdioConnect ctx s (kernel k) in
      Returns (s, {| kernel := k'; calls := calls k |})
  | DoClose => Returns (snd (StdioClose s k))
  | DoSend message =>
      match StdioSend message s (kernel k) with
      | Returns (_, k') => Returns (s, {| kernel := k'; calls := calls k |})
      | Panics => Panics
      end
  | DoReceive =>
      match StdioReceive s (kernel k) with
      | Returns (_, k') => Returns (s, {| kernel := k'; calls := calls k |})
      | Panics => Panics
      end
  end.

Definition tcpStep (c : Call Ctx) (t : TCPTransport) (k : Kernel K)
  : ending (TCPTransport * Kernel K) :=
  match c with
  | DoConnect ctx =>
      let '(_, (t, k')) := TCPConnect ctx t (kernel k) in
      Returns (t, {| kernel := k'; calls := calls k |})
  | DoClose => Returns (snd (TCPClose t k))
  | DoSend message =>
      match TCPSend message t (kernel k) with
      | Returns (_, k') => Returns (t, {| kernel := k'; calls := calls k |})
      | Panics => Panics
      end
  | DoReceive =>
      match TCPReceive t (kernel k) with
      | Returns (_, k') => Returns (t, {| kernel := k'; calls := calls k |})
      | Panics => Panics
      end
  end.

Fixpoint drive {T} (step : Call Ctx -> T -> Kernel K -> ending (T * Kernel K))
    (script : list (Call Ctx)) (t : T) (k : Kernel K)
  : ending (T * Kernel K) :=
  match script with
  | [] => Returns (t, k)
  | c :: rest =>
      match step c t k with
      | Returns (t', k') => drive step rest t' k'
      | Panics => Panics
      end
  end.

End Driving.

End Wire.

(** ** More of the discovery engine *)

Module Scan.
Import Discovery.

(** The loop of [ScanPortRange]:
    [for port := startPort; port <= endPort; port++], the counter being
    an [int] of 64 bits. *)
Fixpoint portRange (fuel : nat) (port endPort : Z) (ports : list Z)
  : option (list Z) :=
  match fuel with
  | O => None
  | S fuel' =>
      if port <=? endPort
      then portRange fuel' (wrap64 (port + 1)) endPort (ports ++ [port])
      else Some ports
  end.

(** What a run of the engine asks of the host, in order. *)
Inductive HostEvent : Type :=
| Dialed (address : string) (timeout : Z)
| AskedVersion
| AskedPs.

Section Engine.

Context {K : Type} `{Host K} `{Strings}.

(** [ScanPortRange]; [None] when the loop has not ended within [fuel]
    turns. *)
Definition ScanPortRange (fuel : nat) (d : Discovery) (host : string)
    (startPort endPort : Z) (k : K) : option (list ServerInfo * K) :=
  match portRange fuel startPort endPort [] with
  | None => None
  | Some ports => Some (DiscoverTCPServers d host ports k)
  end.

Definition SetTimeout (timeout : Z) (d : Discovery) : Discovery :=
  {| Discovery.timeout := timeout |}.

(** Any host, with a record of what it was asked. *)
#[export] Instance traced : Host (K * list HostEvent) := {
  DialTimeout address t kt :=
    let (r, k) := DialTimeout address t (fst kt) in
    (r, (k, snd kt ++ [Dialed address t]));
  DockerVersion kt :=
    let (r, k) := DockerVersion (fst kt) in
    (r, (k, snd kt ++ [AskedVersion]));
  DockerPs kt :=
    let (r, k) := DockerPs (fst kt) in
    (r, (k, snd kt ++ [AskedPs]))
}.

End Engine.

End Scan.

(** ** Vocabulary of the further statements *)

(** A client is coherent when its initialized flag implies that it is
    connected and holds the identity and capabilities of a server. *)
Definition coherent (c : Client.Client) : Prop :=
  Client.initialized c = true ->
  Client.connected c = true
  /\ Client.serverInfo c <> None
  /\ Client.serverCapabilities c <> None.

(** The public methods of the client that change its state. *)
Inductive PublicCall (Ctx : Type) : Type :=
| CallConnect (ctx : Ctx)
| CallDisconnect
| CallCheckConnection
| CallOperation (op : Client.Operation) (fuel : nat) (ctx : Ctx).
Arguments CallConnect {Ctx} _.
Arguments CallDisconnect {Ctx}.
Arguments CallCheckConnection {Ctx}.
Arguments CallOperation {Ctx} _ _ _.

Section Sessions.

Context {W Ctx : Type}.
Context `{Transport.Transport W Ctx} `{Transport.Clock W Ctx}.
Context `{Platform} `{Json}.
Context `{Unmarshal Mcp.InitializeResponse} `{Unmarshal Mcp.ListToolsResponse}
        `{Unmarshal Mcp.CallToolResponse}
        `{Unmarshal Mcp.ListResourcesResponse}
        `{Unmarshal Mcp.ReadResourceResponse}
        `{Unmarshal Mcp.ListPromptsResponse}
        `{Unmarshal Mcp.GetPromptResponse}.

Definition perform (s : Client.State W) (c : PublicCall Ctx)
  : Client.State W :=
  match c with
  | CallConnect ctx => snd (Client.Connect ctx s)
  | CallDisconnect => snd (Client.Disconnect s)
  | CallCheckConnection => snd (Client.CheckConnection s)
  | CallOperation op fuel ctx => snd (Client.run op fuel ctx s)
  end.

(** A session: calls made one after the other on one client. *)
Definition session (calls : list (PublicCall Ctx)) (s : Client.State W)
  : Client.State W :=
  fold_left perform calls s.

End Sessions.

(** The name an operation gives itself in its errors, and the method
    and parameters of its request. *)
Definition operation_name (op : Client.Operation) : string :=
  match op with
  | Client.OpInitialize _ => "initialize"
  | Client.OpListTools => "list tools"
  | Client.OpCallTool _ _ => "call tool"
  | Client.OpListResources => "list resources"
  | Client.OpReadResource _ => "read resource"
  | Client.OpListPrompts => "list prompts"
  | Client.OpGetPrompt _ _ => "get prompt"
  end.

Definition request_of (op : Client.Operation) : string * Mcp.params :=
  match op with
  | Client.OpInitialize clientInfo =>
      ("initialize",
       Mcp.PInitialize
         {| Mcp.ireq_ProtocolVersion := Mcp.Version;
            Mcp.ireq_Capabilities :=
              {| Mcp.cc_Experimental := []; Mcp.cc_Sampling := Some tt |};
            Mcp.ireq_ClientInfo := clientInfo |})
  | Client.OpListTools => ("tools/list", Mcp.PListTools)
  | Client.OpCallTool name arguments =>
      ("tools/call",
       Mcp.PCallTool {| Mcp.ctq_Name := name; Mcp.ctq_Arguments := arguments |})
  | Client.OpListResources => ("resources/list", Mcp.PListResources)
  | Client.OpReadResource uri =>
      ("resources/read", Mcp.PReadResource {| Mcp.rrq_URI := uri |})
  | Client.OpListPrompts => ("prompts/list", Mcp.PListPrompts)
  | Client.OpGetPrompt name arguments =>
      ("prompts/get",
       Mcp.PGetPrompt {| Mcp.gpq_Name := name; Mcp.gpq_Arguments := arguments |})
  end.

(** The guard of an operation: initialized for the six operations,
    connected for the handshake. *)
Definition guard_passes (op : Client.Operation) (c : Client.Client) : bool :=
  if Client.needs_initialized op then Client.initialized c
  else Client.connected c.

(** A connected transport has everything [Connect] sets. *)
Definition tcp_wired (t : Transport.TCPTransport) : Prop :=
  Transport.tcp_connected t = true ->
  exists conn,
    Transport.tcp_conn t = Some conn
    /\ Transport.tcp_reader t = Some conn
    /\ Transport.tcp_writer t = Some conn.

Definition stdio_wired (s : Transport.StdioTransport) : Prop :=
  Transport.stdio_connected s = true ->
  exists cmd process stdin stdout stderr,
    Transport.stdio_cmd s
    = Some {| Transport.cmd_handle := cmd;
              Transport.cmd_Process := Some process |}
    /\ Transport.stdio_stdin s = Some stdin
    /\ Transport.stdio_stdout s = Some stdout
    /\ Transport.stdio_stderr s = Some stderr
    /\ Transport.stdio_reader s = Some stdout
    /\ Transport.stdio_writer s = Some stdin.

(** Whether a setter of the builder sets the transport. *)
Definition sets_transport (c : Builder.Setter) : bool :=
  match c with
  | Builder.SetTransport _ | Builder.SetTCP _ _ | Builder.SetSTDIO _ _
  | Builder.SetWebSocket _ _ _ _ _ => true
  | _ => false
  end.

(** A string without a given byte. *)
Fixpoint free_of (sep : ascii) (s : string) : bool :=
  match s with
  | EmptyString => true
  | String c rest => negb (Ascii.eqb c sep) && free_of sep rest
  end.

(** Fields joined by a separator byte. *)
Fixpoint join_fields (sep : ascii) (fields : list string) : string :=
  match fields with
  | [] => EmptyString
  | [f] => f
  | f :: rest => (f ++ String sep (join_fields sep rest))%string
  end.

(** ** More of the scripted environment *)

Module MockWire.
Import Mcp.

(** An operating system that gives every call of a kind one answer. *)
Record Script : Type := {
  dialAnswer : error + Transport.handle;
  pipeAnswer : error + Transport.handle;
  startAnswer : error + Transport.handle;
  writeAnswer : option error;
  flushAnswer : option error;
  readAnswer : error + string
}.

#[export] Instance io : Wire.IO Script unit := {
  DialContext _ _ _ k := (dialAnswer k, k);
  CommandContext _ _ _ k := (7%nat, k);
  StdinPipe _ k := (pipeAnswer k, k);
  StdoutPipe _ k := (pipeAnswer k, k);
  StderrPipe _ k := (pipeAnswer k, k);
  Start _ k := (startAnswer k, k);
  Write _ _ k := (writeAnswer k, k);
  Flush _ k := (flushAnswer k, k);
  ReadBytes _ _ k := (readAnswer k, k)
}.

#[export] Instance os : Transport.OS Script := {
  sys _ k := (None, k)
}.

(** A codec that writes a message as its method and reads a line as a
    notification of that name. *)
#[export] Instance codec : Wire.Codec := {
  MarshalMessage m := inr (Method m);
  UnmarshalMessage line := inr (NewNotification line PNil)
}.

Definition healthy : Script :=
  {| dialAnswer := inr 3%nat; pipeAnswer := inr 4%nat;
     startAnswer := inr 5%nat; writeAnswer := None; flushAnswer := None;
     readAnswer := inr "ping" |}.

Definition cannotStart : Script :=
  {| dialAnswer := inr 3%nat; pipeAnswer := inr 4%nat;
     startAnswer := inl (ErrNew "exec: not found"); writeAnswer := None;
     flushAnswer := None; readAnswer := inr "ping" |}.

Definition boot (k : Script) : Transport.Kernel Script :=
  {| Transport.kernel := k; Transport.calls := [] |}.

End MockWire.

(** Further scripts of the peer and of the host. *)
Module Scenes.
Import Mcp Mock.

(** The answer to request 7 arrives third. *)
Definition lateAnswer : World :=
  {| up := true; sends := [];
     inbox := [inr notice; inr (response (VInt64 9));
               inr (response (VString "7"))];
     now := 0 |}.

(** A transport that is no longer connected. *)
Definition unplugged : World :=
  {| up := false; sends := []; inbox := []; now := 0 |}.

(** A server that answers request 2 with an error object. *)
Definition refusal : Message :=
  {| JSONRPC := "2.0"; ID := VFloat64 (S754_finite false 1 1); Method := "";
     Params := PNil; Result := VObject [];
     Error := Some {| ei_Code := -32601; ei_Message := "Method not found";
                      ei_Data := VNil |} |}.

Definition refuses : World :=
  {| up := true; sends := []; inbox := [inr refusal]; now := 0 |}.

(** The line of a container that publishes no port: it ends with the
    tab that precedes the empty list of ports. *)
Definition portless : string :=
  join_fields Discovery.tab ["3f2a9c"; "mcp-server"; "acme/mcp:1"; ""].

End Scenes.

(** * Properties *)

(** ** Decimal identifiers *)

Section StrconvFacts.
Import Strconv.

Lemma cutoff10_value : cutoff10 = 1844674407370955162.
Proof. reflexivity. Qed.

Lemma is_digit_bounds (c : ascii) :
  is_digit c = true -> 0 <= digit_val c <= 9.
Proof.
  unfold is_digit, digit_val. intros Hd.
  apply andb_true_iff in Hd as [Hlo Hhi].
  apply Z.leb_le in Hlo. apply Z.leb_le in Hhi. lia.
Qed.

Lemma digits_value_ge (s : string) :
  forall acc v, 0 <= acc -> digits_value acc s = Some v -> acc <= v.
Proof.
  induction s as [|c rest IH]; simpl; intros acc v Hacc Hv.
  - injection Hv as <-. lia.
  - destruct (is_digit c) eqn:Hd; [|discriminate].
    apply is_digit_bounds in Hd.
    apply IH in Hv; lia.
Qed.

(** The digit loop computes the value of the digits whenever that
    value fits in 64 bits. *)
Lemma parseUint_loop_value (s : string) :
  forall n v, 0 <= n -> digits_value n s = Some v -> v <= max_uint64 ->
              parseUint_loop n s = POk v.
Proof.
  induction s as [|c rest IH]; simpl; intros n v Hn Hv Hmax.
  - congruence.
  - destruct (is_digit c) eqn:Hd; [|discriminate]. simpl.
    pose proof (is_digit_bounds _ Hd) as Hb.
    assert (Hle : n * 10 + digit_val c <= v)
      by (apply (digits_value_ge rest); [lia | exact Hv]).
    assert (Hcut : (cutoff10 <=? n) = false).
    { apply Z.leb_gt. rewrite cutoff10_value.
      unfold max_uint64 in Hmax. lia. }
    rewrite Hcut.
    assert (Hov : (max_uint64 <? n * 10 + digit_val c) = false)
      by (apply Z.ltb_ge; lia).
    rewrite Hov. apply IH; [lia | exact Hv | exact Hmax].
Qed.

Lemma ParseUint_value (s : string) (v : Z) :
  s <> EmptyString -> digits_value 0 s = Some v -> v <= max_uint64 ->
  ParseUint s = POk v.
Proof.
  intros Hne Hv Hmax. destruct s as [|c rest]; [congruence|].
  unfold ParseUint. apply parseUint_loop_value; [lia | exact Hv | exact Hmax].
Qed.

Lemma in_int64_bounds (n : Z) :
  in_int64 n = true -> - 2 ^ 63 <= n <= 2 ^ 63 - 1.
Proof.
  unfold in_int64, min_int64, max_int64. intros Hn.
  apply andb_true_iff in Hn as [Hlo Hhi].
  apply Z.leb_le in Hlo. apply Z.leb_le in Hhi. lia.
Qed.

(** [ParseInt] reads every decimal numeral of a 64-bit integer as that
    integer. *)
Lemma ParseInt_decimal (s : string) (n : Z) :
  decimal_value s = Some n -> in_int64 n = true -> ParseInt s = POk n.
Proof.
  intros Hs Hn. apply in_int64_bounds in Hn.
  destruct s as [|c rest]; [discriminate|].
  unfold decimal_value in Hs. unfold ParseInt.
  destruct (Ascii.eqb c "-") eqn:Hminus.
  - destruct rest as [|c' rest']; [discriminate|].
    destruct (digits_value 0 (String c' rest')) as [v|] eqn:Hv;
      [|discriminate].
    injection Hs as <-.
    pose proof (digits_value_ge _ _ _ (Z.le_refl 0) Hv) as Hpos.
    rewrite orb_true_r.
    rewrite (ParseUint_value (String c' rest') v);
      [| discriminate | exact Hv | unfold max_uint64; lia].
    cbv zeta. cbn [negb andb].
    assert (Hc : (2 ^ 63 <? v) = false) by (apply Z.ltb_ge; lia).
    rewrite Hc. reflexivity.
  - rewrite orb_false_r.
    destruct (Ascii.eqb c "+") eqn:Hplus.
    + destruct rest as [|c' rest']; [discriminate|].
      pose proof (digits_value_ge _ _ _ (Z.le_refl 0) Hs) as Hpos.
      rewrite (ParseUint_value (String c' rest') n);
        [| discriminate | exact Hs | unfold max_uint64; lia].
      assert (Hc : (2 ^ 63 <=? n) = false) by (apply Z.leb_gt; lia).
      cbv zeta. cbn [negb andb]. rewrite Hc. reflexivity.
    + pose proof (digits_value_ge _ _ _ (Z.le_refl 0) Hs) as Hpos.
      rewrite (ParseUint_value (String c rest) n);
        [| discriminate | exact Hs | unfold max_uint64; lia].
      assert (Hc : (2 ^ 63 <=? n) = false) by (apply Z.leb_gt; lia).
      cbv zeta. cbn [negb andb]. rewrite Hc. reflexivity.
Qed.

End StrconvFacts.

(** ** Decimal rendering *)

Section FormatFacts.
Import Strconv.

Lemma digit_char_digit (d : Z) :
  0 <= d <= 9 -> is_digit (digit_char d) = true /\ digit_val (digit_char d) = d.
Proof.
  intros Hd.
  assert (Hcases : d = 0 \/ d = 1 \/ d = 2 \/ d = 3 \/ d = 4 \/ d = 5
                   \/ d = 6 \/ d = 7 \/ d = 8 \/ d = 9) by lia.
  repeat (destruct Hcases as [-> | Hcases]; [split; reflexivity|]).
  subst d. split; reflexivity.
Qed.

Lemma is_digit_not_sign (c : ascii) :
  is_digit c = true -> Ascii.eqb c "-" = false /\ Ascii.eqb c "+" = false.
Proof.
  intros Hd. split.
  - destruct (Ascii.eqb_spec c "-") as [-> |]; [discriminate Hd | reflexivity].
  - destruct (Ascii.eqb_spec c "+") as [-> |]; [discriminate Hd | reflexivity].
Qed.

(** The digits written for [n] in front of [acc] are read back as [n]
    in front of what [acc] reads as. *)
Lemma formatUint_aux_value (fuel : nat) :
  forall n acc a,
    0 <= n < 10 ^ Z.of_nat fuel ->
    exists k, 0 <= k /\
      digits_value a (formatUint_aux fuel n acc)
      = digits_value (a * 10 ^ k + n) acc.
Proof.
  induction fuel as [|fuel IH]; intros n acc a Hn.
  - exists 0. split; [lia|]. simpl in *. f_equal. lia.
  - simpl formatUint_aux.
    assert (Hmod : 0 <= n mod 10 <= 9) by (pose proof (Z.mod_pos_bound n 10); lia).
    destruct (digit_char_digit _ Hmod) as [Hdig Hval].
    destruct (n <? 10) eqn:Hsmall.
    + apply Z.ltb_lt in Hsmall. exists 1. split; [lia|].
      simpl digits_value. rewrite Hdig, Hval.
      rewrite Z.mod_small by lia. f_equal; lia.
    + apply Z.ltb_ge in Hsmall.
      destruct (IH (n / 10) (String (digit_char (n mod 10)) acc) a)
        as (k & Hk & Heq).
      { split; [apply Z.div_pos; lia|].
        apply Z.div_lt_upper_bound; [lia|].
        rewrite Nat2Z.inj_succ, Z.pow_succ_r in Hn by lia. lia. }
      exists (k + 1). split; [lia|].
      rewrite Heq. simpl digits_value. rewrite Hdig, Hval.
      f_equal. rewrite Z.pow_add_r by lia.
      pose proof (Z.div_mod n 10). lia.
Qed.

Lemma formatUint_aux_head (fuel : nat) :
  forall n acc,
    0 <= n ->
    exists c rest,
      formatUint_aux (S fuel) n acc = String c rest /\ is_digit c = true.
Proof.
  induction fuel as [|fuel IH]; intros n acc Hn;
    assert (Hmod : 0 <= n mod 10 <= 9)
      by (pose proof (Z.mod_pos_bound n 10); lia);
    destruct (digit_char_digit _ Hmod) as [Hdig _];
    cbn [formatUint_aux]; destruct (n <? 10) eqn:Hsmall;
    try (eexists; eexists; split; [reflexivity | exact Hdig]).
  apply IH. apply Z.div_pos; lia.
Qed.

(** The decimal rendering of a 64-bit integer denotes that integer. *)
Lemma FormatInt_decimal (n : Z) :
  in_int64 n = true -> decimal_value (FormatInt n) = Some n.
Proof.
  intros Hn. apply in_int64_bounds in Hn. unfold FormatInt, FormatUint.
  assert (Hpow : 2 ^ 63 < 10 ^ Z.of_nat 20) by reflexivity.
  destruct (n <? 0) eqn:Hneg.
  - apply Z.ltb_lt in Hneg.
    destruct (formatUint_aux_head 19 (- n) "") as (c & rest & Heq & Hc);
      [lia|].
    destruct (formatUint_aux_value 20 (- n) "" 0) as (k & _ & Hval); [lia|].
    unfold decimal_value. rewrite Ascii.eqb_refl. rewrite Heq in *.
    rewrite Hval. simpl. f_equal; lia.
  - apply Z.ltb_ge in Hneg.
    destruct (formatUint_aux_head 19 n "") as (c & rest & Heq & Hc); [lia|].
    destruct (formatUint_aux_value 20 n "" 0) as (k & _ & Hval); [lia|].
    destruct (is_digit_not_sign c Hc) as [Hminus Hplus].
    unfold decimal_value. rewrite Heq in *. rewrite Hminus, Hplus.
    rewrite Hval. simpl. f_equal; lia.
Qed.

End FormatFacts.

(** ** Floating point identifiers *)

Section FloatFacts.

Lemma Qtruncate_comp (p q : Q) : (p == q)%Q -> Qtruncate p = Qtruncate q.
Proof.
  intros Hpq. unfold Qtruncate.
  destruct (Qle_bool 0 p) eqn:Hp, (Qle_bool 0 q) eqn:Hq.
  - now apply Qfloor_comp.
  - apply Qle_bool_iff in Hp. rewrite Hpq in Hp.
    apply Qle_bool_iff in Hp. congruence.
  - apply Qle_bool_iff in Hq. rewrite <- Hpq in Hq.
    apply Qle_bool_iff in Hq. congruence.
  - now apply Qceiling_comp.
Qed.

Lemma Qtruncate_Z (n : Z) : Qtruncate (inject_Z n) = n.
Proof.
  unfold Qtruncate.
  destruct (Qle_bool 0 (inject_Z n)); [apply Qfloor_Z | apply Qceiling_Z].
Qed.

Lemma Qtruncate_opp_Z (n : Z) : Qtruncate (- inject_Z n) = - n.
Proof. exact (Qtruncate_Z (- n)). Qed.

(** Truncation of a positive fraction and of its opposite. *)
Lemma Qtruncate_pos (m d : positive) :
  Qtruncate (Zpos m # d) = Zpos m / Zpos d.
Proof. reflexivity. Qed.

Lemma Qtruncate_neg (m d : positive) :
  Qtruncate (- (Zpos m # d)) = - (Zpos m / Zpos d).
Proof. reflexivity. Qed.

(** The magnitude [Z.shiftl m e] the conversion computes is the
    truncation of the rational the float stands for. *)
Lemma shiftl_truncates (s : bool) (m : positive) (e : Z) (q : Q) :
  F2Q (S754_finite s m e) = Some q ->
  (if s then - Z.shiftl (Zpos m) e else Z.shiftl (Zpos m) e) = Qtruncate q.
Proof.
  intros Hq.
  destruct e as [|p|p]; unfold F2Q in Hq; injection Hq as <-.
  - rewrite Z.shiftl_0_r.
    destruct s; [now rewrite Qtruncate_opp_Z | now rewrite Qtruncate_Z].
  - rewrite Z.shiftl_mul_pow2 by lia.
    destruct s; [now rewrite Qtruncate_opp_Z | now rewrite Qtruncate_Z].
  - change (Z.shiftl (Zpos m) (Zneg p)) with (Z.shiftr (Zpos m) (Zpos p)).
    rewrite Z.shiftr_div_pow2 by lia.
    rewrite <- Pos2Z.inj_pow.
    destruct s; [now rewrite Qtruncate_neg | now rewrite Qtruncate_pos].
Qed.

Context `{Platform}.

(** On a finite float whose truncation is a 64-bit integer, the
    conversion is the truncation toward zero. *)
Lemma float64_to_int64_truncates (f : float64) (q : Q) :
  F2Q f = Some q -> in_int64 (Qtruncate q) = true ->
  float64_to_int64 unrepresentable f = Qtruncate q.
Proof.
  destruct f as [s|s| |s m e]; try discriminate.
  - intros Hq _. injection Hq as <-. reflexivity.
  - intros Hq Hin. unfold float64_to_int64.
    rewrite (shiftl_truncates s m e q Hq), Hin. reflexivity.
Qed.

Lemma float64_to_int64_exact (f : float64) (q : Q) (n : Z) :
  F2Q f = Some q -> (q == inject_Z n)%Q -> in_int64 n = true ->
  float64_to_int64 unrepresentable f = n.
Proof.
  intros Hq Heq Hn.
  assert (Ht : Qtruncate q = n)
    by (rewrite (Qtruncate_comp _ _ Heq); apply Qtruncate_Z).
  rewrite (float64_to_int64_truncates f q Hq); [exact Ht|].
  now rewrite Ht.
Qed.

End FloatFacts.

(** ** Correlation of a response with its request *)

Section Correlation.
Import Mcp.
Context `{Platform}.
Context {W Ctx : Type} `{Transport.Transport W Ctx} `{Transport.Clock W Ctx}.

Lemma isMatchingID_encodes (v : value) (n : Z) :
  in_int64 n = true -> encodes v n -> Client.isMatchingID v n = true.
Proof.
  intros Hn [-> | [-> | [(f & q & -> & Hq & Heq) | (s & -> & Hs)]]];
    unfold Client.isMatchingID.
  - apply Z.eqb_refl.
  - apply Z.eqb_refl.
  - rewrite (float64_to_int64_exact f q n Hq Heq Hn). apply Z.eqb_refl.
  - rewrite (ParseInt_decimal s n Hs Hn). apply Z.eqb_refl.
Qed.

(** In particular the decimal rendering of the identifier, as the [%d]
    verb writes it, is accepted. *)
Lemma isMatchingID_rendered (n : Z) :
  in_int64 n = true ->
  Client.isMatchingID (VString (Strconv.FormatInt n)) n = true.
Proof.
  intros Hn. apply isMatchingID_encodes; [exact Hn|].
  right. right. right. exists (Strconv.FormatInt n).
  split; [reflexivity | now apply FormatInt_decimal].
Qed.

(** C2.  A response whose identifier gives the request identifier [n]
    back as a native integer, as a float or as a decimal numeral is
    accepted by the correlation check for request [n], and the receive
    loop of request [n] returns that response when it arrives. *)
Theorem isMatchingID_accepts_encodings (v : value) (n : Z) :
  in_int64 n = true -> encodes v n ->
  Client.isMatchingID v n = true
  /\ forall (fuel : nat) (responseCtx : Ctx) (s : Client.State W)
            (response : Message) (w : W),
        Transport.Done responseCtx (Client.world s) = false ->
        Transport.Receive (Client.world s) = Some (inr response, w) ->
        ID response = v ->
        Client.receiveLoop (S fuel) responseCtx n s
        = (Client.Ok response,
           Client.observed s w (Client.EvReceive (inr response))).
Proof.
  intros Hn Hv. pose proof (isMatchingID_encodes v n Hn Hv) as Hm.
  split; [exact Hm|].
  intros fuel rc s response w Hdone Hrecv Hid. simpl.
  rewrite Hdone, Hrecv. simpl. rewrite Hid, Hm. reflexivity.
Qed.

Lemma plus_half_value (n : Z) :
  0 <= n ->
  exists q, F2Q (plus_half n) = Some q /\ (q == inject_Z n + (1 # 2))%Q
            /\ Qtruncate q = n.
Proof.
  intros Hn. unfold plus_half, F2Q.
  eexists. split; [reflexivity|]. split.
  - unfold Qeq, Qplus, inject_Z. cbn [Qnum Qden].
    rewrite Z2Pos.id by lia. change (Zpos (2 ^ 1)) with 2.
    change (Zpos (1 * 2)) with 2. lia.
  - rewrite Qtruncate_pos. rewrite Z2Pos.id by lia.
    change (Zpos (2 ^ 1)) with 2.
    symmetry. apply (Z.div_unique _ _ _ 1); lia.
Qed.

(** C10.  On a float identifier the check compares the truncation of
    the float with the request identifier, so [n + 0.5] is accepted for
    request [n]; an absent identifier is never accepted. *)
Theorem isMatchingID_truncates_floats :
  (forall (f : float64) (q : Q) (n : Z),
      F2Q f = Some q -> in_int64 (Qtruncate q) = true ->
      (Client.isMatchingID (VFloat64 f) n = true <-> Qtruncate q = n))
  /\ (forall n : Z,
         0 <= n < 2 ^ 52 ->
         Client.isMatchingID (VFloat64 (plus_half n)) n = true)
  /\ (forall n : Z, Client.isMatchingID VNil n = false).
Proof.
  split; [|split].
  - intros f q n Hq Hin. unfold Client.isMatchingID.
    rewrite (float64_to_int64_truncates f q Hq Hin). apply Z.eqb_eq.
  - intros n Hn.
    destruct (plus_half_value n) as (q & Hq & _ & Ht); [lia|].
    unfold Client.isMatchingID.
    rewrite (float64_to_int64_truncates _ q Hq).
    + rewrite Ht. apply Z.eqb_refl.
    + rewrite Ht. unfold in_int64, min_int64, max_int64.
      apply andb_true_iff. split; apply Z.leb_le; lia.
  - reflexivity.
Qed.

End Correlation.

Lemma isMatchingID_accepts_encodings_witness :
  @Client.isMatchingID Mock.amd64 (Mcp.VString "+007") 7 = true.
Proof.
  apply (isMatchingID_accepts_encodings (H := Mock.amd64)
           (H0 := Mock.transport) (H1 := Mock.clock)).
  - reflexivity.
  - right. right. right. exists "+007". split; reflexivity.
Defined.

Lemma isMatchingID_truncates_floats_witness :
  @Client.isMatchingID Mock.amd64 (Mcp.VFloat64 (S754_finite false 7 (-1))) 3 = true
  /\ @Client.isMatchingID Mock.amd64 (Mcp.VFloat64 (plus_half 3)) 3 = true.
Proof.
  destruct (isMatchingID_truncates_floats (H := Mock.amd64)) as (Hiff & Hhalf & _).
  split.
  - apply (Hiff (S754_finite false 7 (-1)) (7 # 2)%Q 3);
      [reflexivity | reflexivity | reflexivity].
  - apply Hhalf. lia.
Defined.

(** ** The request round trip *)

Section RoundTrip.
Import Mcp Client.
Context {W Ctx : Type}.
Context `{Transport.Transport W Ctx} `{Transport.Clock W Ctx}.
Context `{Platform}.

Lemma added_app (s s' : State W) (evs : list Event) :
  history s' = history s ++ evs -> added s s' = evs.
Proof.
  intros Heq. unfold added. rewrite Heq.
  rewrite skipn_app, skipn_all, Nat.sub_diag. reflexivity.
Qed.

Lemma set_flags_idem (c : Client) (a b : bool) :
  set_flags (set_flags c a b) false false = set_flags c false false.
Proof. reflexivity. Qed.

(** The receive loop either runs into a failing [Receive], or leaves
    the client as it found it. *)
Lemma receiveLoop_effect (fuel : nat) (responseCtx : Ctx) (id : Z) :
  forall (s : State W) r s',
    receiveLoop fuel responseCtx id s = (r, s') ->
    effect (client s) s r s'.
Proof.
  induction fuel as [|fuel IH]; intros s r s' Hrun; simpl in Hrun.
  - injection Hrun as <- <-. exists []. rewrite app_nil_r.
    split; [reflexivity|]. split; [reflexivity|]. right. repeat split. intros e He; discriminate.
  - destruct (Transport.Done responseCtx (world s)).
    + injection Hrun as <- <-. exists []. rewrite app_nil_r.
      split; [reflexivity|]. split; [reflexivity|]. right. repeat split.
      intros e He (msg & cause & ->). discriminate.
    + destruct (Transport.Receive (world s)) as [[[err|response] w]|].
      * injection Hrun as <- <-. exists [EvReceive (inl err)].
        split; [reflexivity|]. split; [reflexivity|]. left. repeat split.
        exists (ErrWrap "failed to receive response" err).
        split; [reflexivity|]. now exists "failed to receive response", err.
      * simpl in Hrun.
        destruct (isMatchingID (ID response) id).
        -- injection Hrun as <- <-. exists [EvReceive (inr response)].
           split; [reflexivity|]. split; [reflexivity|]. right. repeat split.
           intros e He; discriminate.
        -- apply IH in Hrun as (evs & Hh & Hn & Hcases).
           exists (EvReceive (inr response) :: evs).
           split; [simpl in Hh; rewrite Hh, <- app_assoc; reflexivity|].
           split; [exact Hn | exact Hcases].
      * injection Hrun as <- <-. exists []. rewrite app_nil_r.
        split; [reflexivity|]. split; [reflexivity|]. right. repeat split.
        intros e He; discriminate.
Qed.

Lemma sendRequest_effect (fuel : nat) (ctx : Ctx) (method : string)
    (p : params) (s : State W) r s' :
  sendRequest fuel ctx method p s = (r, s') ->
  effect (client (snd (nextRequestID s))) s r s'.
Proof.
  unfold sendRequest. destruct (nextRequestID s) as [id s1] eqn:Hnext.
  assert (Hh1 : history s1 = history s)
    by (unfold nextRequestID in Hnext; injection Hnext as _ <-; reflexivity).
  assert (Hw1 : world s1 = world s)
    by (unfold nextRequestID in Hnext; injection Hnext as _ <-; reflexivity).
  simpl snd.
  destruct (Transport.IsConnected (world s1)); simpl.
  - destruct (Transport.Send (NewRequest (VInt64 id) method p) (world s1))
      as [[err|] w] eqn:Hsend.
    + intros Hrun. injection Hrun as <- <-.
      exists [EvSend (NewRequest (VInt64 id) method p) (Some err)].
      split; [simpl; now rewrite Hh1|]. split; [reflexivity|]. left. repeat split.
      exists (ErrWrap "failed to send request" err).
      split; [reflexivity|]. now exists "failed to send request", err.
    + intros Hrun.
      apply receiveLoop_effect in Hrun as (evs & Hh & Hn & Hcases).
      exists (EvSend (NewRequest (VInt64 id) method p) None :: evs).
      split; [simpl in Hh; rewrite Hh, Hh1, <- app_assoc; reflexivity|].
      split; [exact Hn | exact Hcases].
  - intros Hrun. injection Hrun as <- <-. exists []. rewrite app_nil_r.
    split; [exact Hh1|]. split; [reflexivity|]. right. repeat split.
    intros e He (msg & cause & ->). discriminate.
Qed.

(** The identifier a request is assigned is the one its message
    carries on the wire. *)
Lemma sendRequest_sends_identifier (fuel : nat) (ctx : Ctx) (method : string)
    (p : params) (s : State W) r s' :
  sendRequest fuel ctx method p s = (r, s') ->
  Transport.IsConnected (world s) = true ->
  exists answer evs,
    history s'
    = history s
        ++ EvSend (NewRequest (VInt64 (fst (nextRequestID s))) method p) answer
        :: evs.
Proof.
  unfold sendRequest, nextRequestID. simpl. intros Hrun Hup. rewrite Hup in Hrun.
  simpl in Hrun.
  match type of Hrun with
  | context [Transport.Send ?m ?w] =>
      destruct (Transport.Send m w) as [[err|] w1] eqn:Hsend
  end.
  - injection Hrun as <- <-. now exists (Some err), [].
  - apply receiveLoop_effect in Hrun as (evs & Hh & _).
    exists None, evs. simpl in Hh. rewrite Hh, <- app_assoc. reflexivity.
Qed.

(** A request consumes exactly one identifier, whatever its outcome. *)
Lemma sendRequest_counter (fuel : nat) (ctx : Ctx) (method : string)
    (p : params) (s : State W) r s' :
  sendRequest fuel ctx method p s = (r, s') ->
  requestID (client s') = wrap64 (requestID (client s) + 1).
Proof.
  intros Hrun. apply sendRequest_effect in Hrun as (evs & _ & _ & Hcases).
  destruct Hcases as [(_ & _ & ->) | (_ & -> & _)]; reflexivity.
Qed.


End RoundTrip.

(** ** The operations of the client *)

Section ClientFacts.
Import Mcp Client.
Context {W Ctx : Type}.
Context `{Transport.Transport W Ctx} `{Transport.Clock W Ctx}.
Context `{Platform} `{Json}.
Context `{Unmarshal InitializeResponse} `{Unmarshal ListToolsResponse}
        `{Unmarshal CallToolResponse} `{Unmarshal ListResourcesResponse}
        `{Unmarshal ReadResourceResponse} `{Unmarshal ListPromptsResponse}
        `{Unmarshal GetPromptResponse}.

(** The round trip of an operation: on a failed transport call the
    error of the request is wrapped once more and the flags are
    cleared; otherwise the client only took an identifier. *)
Lemma roundTrip_effect {T R} `{Unmarshal T} (fuel : nat) (ctx : Ctx)
    (what method : string) (p : params) (proj : T -> R) (s : State W) r s' :
  erase (roundTrip fuel ctx what method p proj s) = (r, s') ->
  exists evs,
    history s' = history s ++ evs
    /\ ((existsb request_io_failed evs = true
         /\ (exists e, r = Fail (ErrWrap (what ++ " request failed") e)
                       /\ wrapped e)
         /\ client s' = set_flags (client (snd (nextRequestID s))) false false)
        \/ (existsb request_io_failed evs = false
            /\ client s' = client (snd (nextRequestID s)))).
Proof.
  unfold roundTrip.
  destruct (sendRequest fuel ctx method p s) as [r0 s0] eqn:Hsend.
  apply sendRequest_effect in Hsend as (evs & Hh & _ & Hcases).
  intros Hrun. exists evs.
  destruct Hcases as [(Hf & (e & -> & He) & Hc) | (Hf & Hc & _)].
  - simpl in Hrun. injection Hrun as <- <-.
    split; [exact Hh|]. left. repeat split; try assumption.
    exists e. now split.
  - assert (Hs : s0 = s').
    { destruct r0 as [response|e0|];
        [destruct (decode what response) as [err|t]| |];
        simpl in Hrun; now injection Hrun. }
    subst s0. split; [exact Hh|]. right. now split.
Qed.

(** The first part of the handshake: as a round trip, except that on
    success the answer of the server is stored and the flag set. *)
Lemma initializeHandshake_effect (fuel : nat) (ctx : Ctx)
    (clientInfo : ClientInfo) (s : State W) r s' :
  initializeHandshake fuel ctx clientInfo s = (r, s') ->
  exists evs,
    history s' = history s ++ evs
    /\ notification_sent evs = false
    /\ ((existsb request_io_failed evs = true
         /\ (exists e, r = Fail (ErrWrap "initialize request failed" e)
                       /\ wrapped e)
         /\ client s' = set_flags (client (snd (nextRequestID s))) false false)
        \/ (existsb request_io_failed evs = false
            /\ ((r <> Ok tt
                 /\ (client s' = client s
                     \/ client s' = client (snd (nextRequestID s))))
                \/ (r = Ok tt
                    /\ initialized (client s') = true
                    /\ connected (client s') = connected (client s)
                    /\ serverInfo (client s') <> None
                    /\ serverCapabilities (client s') <> None)))).
Proof.
  unfold initializeHandshake.
  destruct (negb (IsConnected s)).
  { intros Hrun. injection Hrun as <- <-. exists []. rewrite app_nil_r.
    repeat (split; [reflexivity|]). right. split; [reflexivity|].
    left. split; [discriminate | now left]. }
  match goal with
  | |- context [sendRequest ?f ?c ?m ?p s] =>
      destruct (sendRequest f c m p s) as [r0 s0] eqn:Hsend
  end.
  apply sendRequest_effect in Hsend as (evs & Hh & Hn & Hcases).
  intros Hrun. exists evs.
  destruct Hcases as [(Hf & (e & -> & He) & Hc) | (Hf & Hc & _)].
  - injection Hrun as <- <-.
    repeat (split; [assumption|]). left. repeat split; try assumption.
    exists e. now split.
  - destruct r0 as [response|e0|].
    + destruct (decode "initialize" response) as [err|initResponse].
      * injection Hrun as <- <-.
        repeat (split; [assumption|]). right. split; [assumption|].
        left. split; [discriminate | now right].
      * injection Hrun as <- <-.
        repeat (split; [assumption|]). right. split; [assumption|].
        right. simpl. rewrite Hc. repeat split; discriminate.
    + injection Hrun as <- <-.
      repeat (split; [assumption|]). right. split; [assumption|].
      left. split; [discriminate | now right].
    + injection Hrun as <- <-.
      repeat (split; [assumption|]). right. split; [assumption|].
      left. split; [discriminate | now right].
Qed.

(** What one of the six operations can have done when it returns. *)
Lemma operation_effect (op : Operation) (fuel : nat) (ctx : Ctx)
    (s : State W) r s' :
  needs_initialized op = true ->
  run op fuel ctx s = (r, s') ->
  exists evs,
    history s' = history s ++ evs
    /\ ((existsb request_io_failed evs = true
         /\ (exists e, r = Fail (ErrWrap (request_failed_message op) e)
                       /\ wrapped e)
         /\ client s' = set_flags (client (snd (nextRequestID s))) false false)
        \/ (existsb request_io_failed evs = false
            /\ (client s' = client (snd (nextRequestID s))
                \/ (s' = s /\ r = Fail ErrNotInitialized)
                \/ (client s' = set_flags (client s) false false
                    /\ r = Fail (ErrWrap "connection check failed"
                                   (ErrNew "transport disconnected")))))).
Proof.
  intros Hop Hrun.
  assert (Hguard : forall s0 : State W,
             exists evs, history s0 = history s0 ++ evs
               /\ existsb request_io_failed evs = false)
    by (intros s0; exists []; now rewrite app_nil_r).
  destruct op; try discriminate Hop; unfold run in Hrun;
    [ unfold ListTools in Hrun
    | unfold CallTool in Hrun
    | unfold ListResources in Hrun
    | unfold ReadResource in Hrun
    | unfold ListPrompts in Hrun
    | unfold GetPrompt in Hrun ];
    (destruct (negb (IsInitialized s));
     [ simpl in Hrun; injection Hrun as <- <-; exists [];
       rewrite app_nil_r; split; [reflexivity|]; right;
       split; [reflexivity|]; right; left; now split
     | ]).
  2: { unfold CheckConnection in Hrun.
       destruct (negb (Transport.IsConnected (world s))).
       - simpl in Hrun. injection Hrun as <- <-. exists [].
         rewrite app_nil_r. split; [reflexivity|]. right.
         split; [reflexivity|]. right. right. now split.
       - apply roundTrip_effect in Hrun as (evs & Hh & Hcases).
         exists evs. split; [exact Hh|].
         destruct Hcases as [Hc | [Hf Hc]]; [now left | right].
         split; [exact Hf | now left]. }
  all: apply roundTrip_effect in Hrun as (evs & Hh & Hcases);
    exists evs; (split; [exact Hh|]);
    (destruct Hcases as [Hc | [Hf Hc]]; [now left | right]);
    (split; [exact Hf | now left]).
Qed.

Lemma existsb_added (s s' : State W) (evs : list Event) :
  history s' = history s ++ evs ->
  existsb request_io_failed (added s s') = existsb request_io_failed evs.
Proof. intros Hh. now rewrite (added_app s s' evs Hh). Qed.

(** C1 (as the code has it).  When the [Send] of a request or a
    [Receive] of the wait for its response fails, the operation
    returns an error with the connected and the initialized flag
    cleared; the stored server identity and capabilities keep the
    values they had. *)
Theorem transport_failure_clears_flags (op : Operation) (fuel : nat)
    (ctx : Ctx) (s : State W) r s' :
  run op fuel ctx s = (r, s') ->
  existsb request_io_failed (added s s') = true ->
  (exists e, r = Fail e)
  /\ connected (client s') = false
  /\ initialized (client s') = false
  /\ serverInfo (client s') = serverInfo (client s)
  /\ serverCapabilities (client s') = serverCapabilities (client s).
Proof.
  intros Hrun Hfailed.
  destruct (needs_initialized op) eqn:Hop.
  - apply operation_effect in Hrun as (evs & Hh & Hcases); [|exact Hop].
    rewrite (existsb_added s s' evs Hh) in Hfailed.
    destruct Hcases as [(_ & (e & -> & _) & ->) | (Hf & _)];
      [| congruence].
    split; [now eexists | repeat split].
  - destruct op; try discriminate Hop. unfold run, Initialize in Hrun.
    destruct (initializeHandshake fuel ctx clientInfo s) as [r0 s0] eqn:Hhs.
    apply initializeHandshake_effect in Hhs as (evs & Hh & _ & Hcases).
    destruct Hcases as [(Hf & (e & -> & _) & Hc) | (Hf & Hcases)].
    + injection Hrun as <- <-. rewrite Hc.
      split; [now eexists | repeat split].
    + exfalso. destruct Hcases as [(Hne & _) | (-> & _)].
      * assert (Hsame : (r0, s0) = (r, s'))
          by (destruct r0 as [[]| |]; [congruence | exact Hrun | exact Hrun]).
        injection Hsame as <- <-.
        rewrite (existsb_added s s0 evs Hh) in Hfailed. congruence.
      * unfold sendInitialized in Hrun.
        destruct (Transport.Send initializedNotification (world s0))
          as [sent w].
        assert (Hh' : history s' = history s
                      ++ (evs ++ [EvSend initializedNotification sent])).
        { destruct sent; injection Hrun as <- <-; simpl;
            now rewrite Hh, <- app_assoc. }
        rewrite (existsb_added s s' _ Hh'), existsb_app, Hf in Hfailed.
        destruct sent; discriminate Hfailed.
Qed.

(** C3 (as the code has it).  The handshake sets the initialized flag,
    with the server identity and capabilities, once the response to
    [initialize] is decoded, and only then sends the notification;
    when [Initialize] returns without error the notification has been
    sent, as the last transport call, and the client is initialized. *)
Theorem initialized_set_before_notification (fuel : nat) (ctx : Ctx)
    (clientInfo : ClientInfo) (s : State W) :
  (forall s1,
      initializeHandshake fuel ctx clientInfo s = (Ok tt, s1) ->
      initialized (client s1) = true
      /\ serverInfo (client s1) <> None
      /\ notification_sent (added s s1) = false
      /\ Initialize fuel ctx clientInfo s = sendInitialized s1)
  /\ (forall s',
         Initialize fuel ctx clientInfo s = (Ok tt, s') ->
         initialized (client s') = true
         /\ notification_sent (added s s') = true
         /\ exists evs,
             history s' = history s ++ evs
                            ++ [EvSend initializedNotification None]).
Proof.
  split.
  - intros s1 Hhs. unfold Initialize. rewrite Hhs.
    apply initializeHandshake_effect in Hhs as (evs & Hh & Hn & Hcases).
    rewrite (added_app s s1 evs Hh).
    destruct Hcases as [(_ & (e & He & _) & _) | (_ & Hcases)];
      [discriminate|].
    destruct Hcases as [(Hne & _) | (_ & Hi & _ & Hsi & _)];
      [congruence|].
    repeat split; assumption.
  - intros s' Hrun. unfold Initialize in Hrun.
    destruct (initializeHandshake fuel ctx clientInfo s) as [r0 s0] eqn:Hhs.
    destruct r0 as [[]| |]; try discriminate.
    apply initializeHandshake_effect in Hhs as (evs & Hh & Hn & Hcases).
    destruct Hcases as [(_ & (e & He & _) & _) | (_ & Hcases)];
      [discriminate|].
    destruct Hcases as [(Hne & _) | (_ & Hi & _)]; [congruence|].
    unfold sendInitialized in Hrun.
    destruct (Transport.Send initializedNotification (world s0))
      as [[err|] w]; [discriminate|].
    injection Hrun as <-. simpl.
    assert (Hh' : history (observed s0 w (EvSend initializedNotification None))
                  = history s ++ (evs ++ [EvSend initializedNotification None]))
      by (simpl; now rewrite Hh, <- app_assoc).
    split; [exact Hi|]. split.
    + rewrite (added_app s _ _ Hh'). unfold notification_sent.
      rewrite existsb_app. simpl. apply orb_true_r.
    + exists evs. rewrite Hh. now rewrite <- app_assoc.
Qed.



(** C8.  [Initialize] on a client that is not connected returns the
    "not connected" error, and each of the six operations on a client
    that is not initialized returns the "not initialized" error; the
    state after the call is the state before it, history of transport
    calls included. *)
Theorem guards_return_without_io (s : State W) :
  (IsConnected s = false ->
   forall fuel ctx clientInfo,
     run (OpInitialize clientInfo) fuel ctx s = (Fail ErrNotConnected, s))
  /\ (IsInitialized s = false ->
      forall op fuel ctx,
        needs_initialized op = true ->
        run op fuel ctx s = (Fail ErrNotInitialized, s)
        /\ added s (snd (run op fuel ctx s)) = []).
Proof.
  split.
  - intros Hc fuel ctx clientInfo.
    unfold run, Initialize, initializeHandshake. now rewrite Hc.
  - intros Hi op fuel ctx Hop.
    assert (Hrun : run op fuel ctx s = (Fail ErrNotInitialized, s)).
    { destruct op; try discriminate Hop;
        unfold run, ListTools, CallTool, ListResources, ReadResource,
          ListPrompts, GetPrompt;
        now rewrite Hi. }
    rewrite Hrun. split; [reflexivity|].
    unfold added. simpl. apply skipn_all.
Qed.

(** A second [Disconnect] finds the client disconnected. *)
Lemma Disconnect_disconnects (s : State W) :
  connected (client (snd (Disconnect s))) = false.
Proof.
  unfold Disconnect. destruct (connected (client s)) eqn:Hc; simpl.
  - now destruct (Transport.Close (world s)).
  - exact Hc.
Qed.

Lemma Disconnect_when_disconnected (s : State W) :
  connected (client s) = false -> Disconnect s = (None, s).
Proof. intros Hc. unfold Disconnect. now rewrite Hc. Qed.

Lemma wrap64_small (z : Z) : - 2 ^ 63 <= z < 2 ^ 63 -> wrap64 z = z.
Proof. intros Hz. unfold wrap64. rewrite Z.mod_small; lia. Qed.

(** The identifiers of a sequence of requests count up from the
    counter the client starts with. *)
Lemma issue_counts (fuel : nat) (ctx : Ctx) (reqs : list (string * params)) :
  forall (s : State W) ids s',
    issue fuel ctx reqs s = (ids, s') ->
    0 <= requestID (client s) ->
    requestID (client s) + Z.of_nat (List.length reqs) < 2 ^ 63 ->
    ids = map (fun i => requestID (client s) + Z.of_nat i)
            (seq 1 (List.length ids))
    /\ (List.length ids <= List.length reqs)%nat
    /\ requestID (client s') = requestID (client s)
                               + Z.of_nat (List.length ids).
Proof.
  induction reqs as [|[method p] rest IH]; intros s ids s' Hrun Hlo Hhi.
  - simpl in Hrun. injection Hrun as <- <-. simpl. repeat split; lia.
  - simpl in Hrun. simpl List.length in Hhi.
    destruct (sendRequest fuel ctx method p s) as [r0 s0] eqn:Hsend.
    pose proof (sendRequest_counter _ _ _ _ _ _ _ Hsend) as Hid.
    rewrite wrap64_small in Hid by lia.
    assert (Hw : wrap64 (requestID (client s) + 1) = requestID (client s) + 1)
      by (apply wrap64_small; lia).
    rewrite Hw in Hrun.
    assert (Hrest : forall ids0,
               issue fuel ctx rest s0 = (ids0, s') ->
               ids = requestID (client s) + 1 :: ids0 ->
               ids = map (fun i => requestID (client s) + Z.of_nat i)
                       (seq 1 (List.length ids))
               /\ (List.length ids <= S (List.length rest))%nat
               /\ requestID (client s') = requestID (client s)
                                          + Z.of_nat (List.length ids)).
    { intros ids0 Hrec ->.
      apply IH in Hrec as (Hids & Hlen & Hcnt); [| lia | lia].
      simpl List.length. split; [|split; [lia|lia]].
      change (seq 1 (S (List.length ids0)))
        with (1%nat :: seq 2 (List.length ids0)).
      rewrite map_cons. f_equal; try lia.
      rewrite Hids at 1. rewrite <- (seq_shift _ 1), map_map.
      apply map_ext. intros i. rewrite Hid. lia. }
    destruct r0 as [response|e|].
    + destruct (issue fuel ctx rest s0) as [ids0 s1] eqn:Hrec.
      injection Hrun as <- <-. now apply (Hrest ids0).
    + destruct (issue fuel ctx rest s0) as [ids0 s1] eqn:Hrec.
      injection Hrun as <- <-. now apply (Hrest ids0).
    + injection Hrun as <- <-. simpl List.length.
      split; [reflexivity | split; lia].
Qed.

Lemma counting_sorted (n : nat) :
  forall start, StronglySorted Z.lt (map Z.of_nat (seq start n)).
Proof.
  induction n as [|n IH]; intros start; simpl; constructor.
  - apply IH.
  - apply Forall_forall. intros z Hz.
    apply in_map_iff in Hz as (i & <- & Hi). apply in_seq in Hi. lia.
Qed.

Lemma counting_nodup (n start : nat) : NoDup (map Z.of_nat (seq start n)).
Proof.
  apply Injective_map_NoDup; [|apply seq_NoDup].
  intros a b. apply Nat2Z.inj.
Qed.

(** C5.  The requests issued through a fresh client are assigned the
    identifiers 1, 2, 3, ... in order: strictly increasing and without
    repetition, as long as fewer than [2^63] are issued. *)
Theorem request_ids_count_from_one (fuel : nat) (ctx : Ctx)
    (reqs : list (string * params)) (s : State W) ids s' :
  requestID (client s) = 0 ->
  Z.of_nat (List.length reqs) < 2 ^ 63 ->
  issue fuel ctx reqs s = (ids, s') ->
  ids = map Z.of_nat (seq 1 (List.length ids))
  /\ StronglySorted Z.lt ids
  /\ NoDup ids
  /\ requestID (client s') = Z.of_nat (List.length ids).
Proof.
  intros Hzero Hlen Hrun.
  apply issue_counts in Hrun as (Hids & _ & Hcnt); [| lia | lia].
  rewrite Hzero in Hids, Hcnt.
  assert (Heq : ids = map Z.of_nat (seq 1 (List.length ids)))
    by (rewrite Hids at 1; apply map_ext; intros i; lia).
  split; [exact Heq|].
  split; [rewrite Heq; apply counting_sorted|].
  split; [rewrite Heq; apply counting_nodup | lia].
Qed.

End ClientFacts.

(** ** Closing a transport *)

Section CloseFacts.
Import Transport.
Context {K : Type} `{OS K}.

(** On a transport with its three pipes and its process, the five
    steps and the four errors kept, written out. *)
Lemma StdioClose_five_steps (s : StdioTransport) (k : Kernel K)
    (stdin stdout stderr cmd process : handle) :
  stdio_connected s = true ->
  stdio_stdin s = Some stdin ->
  stdio_stdout s = Some stdout ->
  stdio_stderr s = Some stderr ->
  stdio_cmd s = Some {| cmd_handle := cmd; cmd_Process := Some process |} ->
  let '(r1, k1) := sys (PipeClose stdin) (kernel k) in
  let '(r2, k2) := sys (PipeClose stdout) k1 in
  let '(r3, k3) := sys (PipeClose stderr) k2 in
  let '(r4, k4) := sys (ProcessKill process) k3 in
  let '(r5, k5) := sys (CmdWait cmd) k4 in
  let errs := collected r1 ++ collected r2 ++ collected r3 ++ collected r4 in
  StdioClose s k
  = (match errs with
     | [] => None
     | _ :: _ => Some (errors_during_close errs)
     end,
     (NewStdioTransport (stdio_command s) (stdio_args s),
      {| kernel := k5;
         calls := calls k ++ [PipeClose stdin; PipeClose stdout;
                              PipeClose stderr; ProcessKill process;
                              CmdWait cmd] |})).
Proof.
  intros Hc Hin Hout Herr Hcmd.
  unfold StdioClose, close_pipe, call. rewrite Hc, Hin, Hout, Herr, Hcmd.
  simpl.
  destruct (sys (PipeClose stdin) (kernel k)) as [r1 k1]; simpl.
  destruct (sys (PipeClose stdout) k1) as [r2 k2]; simpl.
  destruct (sys (PipeClose stderr) k2) as [r3 k3]; simpl.
  destruct (sys (ProcessKill process) k3) as [r4 k4]; simpl.
  destruct (sys (CmdWait cmd) k4) as [r5 k5]; simpl.
  repeat rewrite <- app_assoc. simpl.
  destruct r1, r2, r3, r4; reflexivity.
Qed.

(** C7 (as the code has it).  [Close] on a connected STDIO transport
    closes stdin, stdout and stderr, kills the child and waits for it,
    in this order; the errors of the closes and of the kill are
    gathered, in this order, into one error instead of returning at the
    first one, and the answer of the wait is dropped. *)
Theorem StdioClose_steps (s : StdioTransport) (k : Kernel K) :
  stdio_connected s = true ->
  let (answers, k') := answers_of (close_steps s) (kernel k) in
  StdioClose s k
  = (match flat_map kept answers with
     | [] => None
     | _ :: _ => Some (errors_during_close (flat_map kept answers))
     end,
     (NewStdioTransport (stdio_command s) (stdio_args s),
      {| kernel := k'; calls := calls k ++ close_steps s |})).
Proof.
  intros Hc. unfold StdioClose, close_pipe, call, close_steps.
  rewrite Hc. simpl negb. cbv iota.
  destruct (stdio_stdin s) as [stdin|], (stdio_stdout s) as [stdout|],
    (stdio_stderr s) as [stderr|],
    (stdio_cmd s) as [[cmd [process|]]|];
    simpl;
    repeat match goal with
      | |- context [sys ?c ?k0] =>
          destruct (sys c k0) as [[?|] ?]; simpl
      end;
    repeat rewrite <- app_assoc; simpl; rewrite ?app_nil_r;
    try reflexivity; destruct k; reflexivity.
Qed.

(** A transport that is not connected closes without a call and
    without an error. *)
Lemma TCPClose_not_connected (t : TCPTransport) (k : Kernel K) :
  tcp_connected t = false -> TCPClose t k = (None, (t, k)).
Proof. intros Hc. unfold TCPClose. now rewrite Hc. Qed.

Lemma StdioClose_not_connected (s : StdioTransport) (k : Kernel K) :
  stdio_connected s = false -> StdioClose s k = (None, (s, k)).
Proof. intros Hc. unfold StdioClose. now rewrite Hc. Qed.

Lemma WebSocketClose_not_connected (w : WebSocketTransport) (k : Kernel K) :
  ws_connected w = false -> WebSocketClose w k = Some (None, (w, k)).
Proof. intros Hc. unfold WebSocketClose. now rewrite Hc. Qed.

Context {W Ctx : Type} `{Transport W Ctx}.

(** C9.  A second [Disconnect] returns no error and changes nothing;
    [Close] on a transport fresh from its constructor returns no
    error, for the three variants, and makes no call. *)
Theorem Disconnect_and_Close_idempotent :
  (forall s : Client.State W,
      Client.Disconnect (snd (Client.Disconnect s))
      = (None, snd (Client.Disconnect s)))
  /\ (forall host port (k : Kernel K),
         TCPClose (NewTCPTransport host port) k
         = (None, (NewTCPTransport host port, k)))
  /\ (forall command args (k : Kernel K),
         StdioClose (NewStdioTransport command args) k
         = (None, (NewStdioTransport command args, k)))
  /\ (forall url rc wc sc ec (k : Kernel K),
         WebSocketClose (NewWebSocketTransport url rc wc sc ec) k
         = Some (None, (NewWebSocketTransport url rc wc sc ec, k))).
Proof.
  split; [|split; [|split]].
  - intros s. apply Disconnect_when_disconnected, Disconnect_disconnects.
  - intros. now apply TCPClose_not_connected.
  - intros. now apply StdioClose_not_connected.
  - intros. now apply WebSocketClose_not_connected.
Qed.

End CloseFacts.

(** ** Discovery *)

Section DiscoveryFacts.
Import Discovery.
Context {K : Type} `{Host K} `{Strings}.

Lemma scanPorts_closed (d : Discovery) (host : string) (ports : list Z) :
  (forall address t k, fst (DialTimeout address t k) = false) ->
  forall servers k, fst (scanPorts d host ports servers k) = servers.
Proof.
  intros Hclosed. induction ports as [|port rest IH]; intros servers k.
  - reflexivity.
  - simpl. unfold isPortOpen.
    pose proof (Hclosed (host ++ ":" ++ Strconv.FormatInt port)%string
                  (Discovery.timeout d) k) as Hp.
    destruct (DialTimeout _ _ k) as [open k1]. simpl in Hp. subst open.
    apply IH.
Qed.

Lemma scanContainers_none (containers : list DockerContainer) :
  forallb (fun c => negb (isMCPContainer c)) containers = true ->
  forall servers, scanContainers containers servers = servers.
Proof.
  induction containers as [|c rest IH]; intros Hnone servers.
  - reflexivity.
  - simpl in Hnone. apply andb_true_iff in Hnone as [Hc Hrest].
    simpl. apply negb_true_iff in Hc. rewrite Hc. now apply IH.
Qed.

(** C6.  [DiscoverAll] returns the port-probed descriptors, then the
    container descriptors, then the static bridge descriptor, which is
    thus always the last element, whatever was found before it; with
    no open port and no matching container the bridge descriptor is
    the whole result. *)
Theorem DiscoverAll_appends_bridge (d : Discovery) (host : string) (k : K) :
  (let (tcpServers, k1) := DiscoverCommonPorts d host k in
   let (dockerServers, k2) := DiscoverDockerServers d k1 in
   DiscoverAll d host k
   = (tcpServers ++ dockerServers ++ [dockerMCP d], k2))
  /\ (exists found, fst (DiscoverAll d host k) = found ++ [dockerMCP d])
  /\ ((forall address t k0, fst (DialTimeout address t k0) = false) ->
      (forall k0 out,
          fst (DockerPs k0) = Some out ->
          forallb (fun c => negb (isMCPContainer c))
            (parseLines (Split out newline) []) = true) ->
      fst (DiscoverAll d host k) = [dockerMCP d]).
Proof.
  assert (Hshape :
            let (tcpServers, k1) := DiscoverCommonPorts d host k in
            let (dockerServers, k2) := DiscoverDockerServers d k1 in
            DiscoverAll d host k
            = (tcpServers ++ dockerServers ++ [dockerMCP d], k2)).
  { unfold DiscoverAll.
    destruct (DiscoverCommonPorts d host k) as [tcpServers k1].
    destruct (DiscoverDockerServers d k1) as [dockerServers k2].
    simpl. now rewrite <- app_assoc. }
  split; [exact Hshape|].
  destruct (DiscoverCommonPorts d host k) as [tcpServers k1] eqn:Htcp.
  destruct (DiscoverDockerServers d k1) as [dockerServers k2] eqn:Hdocker.
  rewrite Hshape. simpl fst. split.
  - exists (tcpServers ++ dockerServers). now rewrite <- app_assoc.
  - intros Hclosed Hnone.
    assert (Ht : tcpServers = []).
    { unfold DiscoverCommonPorts, DiscoverTCPServers in Htcp.
      pose proof (scanPorts_closed d host commonPorts Hclosed [] k) as Hs.
      rewrite Htcp in Hs. exact Hs. }
    assert (Hd : dockerServers = []).
    { unfold DiscoverDockerServers, isDockerAvailable in Hdocker.
      destruct (DockerVersion k1) as [available k3].
      destruct available; simpl in Hdocker;
        [| now injection Hdocker as <- _].
      unfold getDockerContainers in Hdocker.
      pose proof (Hnone k3) as Hps.
      destruct (DockerPs k3) as [[out|] k4]; simpl in Hps.
      - injection Hdocker as <- _.
        apply scanContainers_none. now apply Hps.
      - now injection Hdocker as <- _. }
    now rewrite Ht, Hd.
Qed.

End DiscoveryFacts.

(** ** Scenarios on the scripted environment *)

Section Scenarios.
Import Mcp Client Mock.

(** C1, as stated, fails: the [Send] of a [tools/list] request fails,
    the operation returns its error with both flags cleared, and the
    server identity and capabilities stored by the handshake are still
    there. *)
Lemma serverInfo_survives_transport_failure :
  let (r, s') := ListTools 5 None (ready sendFails) in
  r = Fail (ErrWrap "list tools request failed"
              (ErrWrap "failed to send request" broken))
  /\ history s'
     = [EvSend (NewRequest (VInt64 2) "tools/list" PListTools) (Some broken)]
  /\ connected (client s') = false
  /\ initialized (client s') = false
  /\ serverInfo (client s') = Some demoServer
  /\ serverCapabilities (client s') = Some demoCapabilities
  /\ ~ (serverInfo (client s') = None
        /\ serverCapabilities (client s') = None).
Proof.
  vm_compute. repeat split. intros [Hsi _]. discriminate Hsi.
Qed.

Lemma transport_failure_clears_flags_witness :
  let s' := snd (run OpListTools 5 None (ready sendFails)) in
  connected (client s') = false
  /\ initialized (client s') = false
  /\ serverInfo (client s') = Some demoServer.
Proof.
  pose proof (transport_failure_clears_flags OpListTools 5 None
                (ready sendFails)
                (fst (run OpListTools 5 None (ready sendFails)))
                (snd (run OpListTools 5 None (ready sendFails)))
                eq_refl eq_refl) as (_ & Hc & Hi & Hsi & _).
  repeat split; assumption.
Defined.

(** C3, as stated, fails: after the first part of the handshake the
    initialized flag is set, no notification has been handed to the
    transport, and what is left of [Initialize] is to send it. *)
Lemma initialized_before_notification_sent :
  let s := connectedClient (answers (VFloat64 (S754_finite false 1 0))) in
  let (r, s1) := initializeHandshake 5 None me s in
  r = Ok tt
  /\ IsInitialized s1 = true
  /\ notification_sent (history s1) = false
  /\ Initialize 5 None me s = sendInitialized s1.
Proof. vm_compute. repeat split. Qed.

Lemma initialized_set_before_notification_witness :
  let s := connectedClient (answers (VInt64 1)) in
  IsInitialized (snd (initializeHandshake 5 None me s)) = true
  /\ IsInitialized (snd (Initialize 5 None me s)) = true
  /\ notification_sent (history (snd (Initialize 5 None me s))) = true.
Proof.
  pose (s := connectedClient (answers (VInt64 1))).
  destruct (initialized_set_before_notification 5 None me s) as [Hfirst Hall].
  destruct (Hfirst (snd (initializeHandshake 5 None me s))) as (Hi & _);
    [reflexivity|].
  destruct (Hall (snd (Initialize 5 None me s))) as (Hi' & Hn & _);
    [reflexivity|].
  repeat split; assumption.
Defined.

(** What the run of [Initialize] leaves when the notification cannot
    be sent. *)
Example notification_failure_outcome :
  let s := {| client := set_flags (NewClient config) true false;
              world := {| up := true; sends := [None; Some broken];
                          inbox := [inr (response (VInt64 1))]; now := 0 |};
              history := [] |} in
  let (r, s') := Initialize 5 None me s in
  r = Fail (ErrWrap "failed to send initialized notification" broken)
  /\ IsConnected s' = true
  /\ IsInitialized s' = true.
Proof. vm_compute. repeat split. Qed.



Lemma request_ids_count_from_one_witness :
  fst (issue 5 None
         [("initialize", PNil); ("tools/list", PListTools);
          ("prompts/list", PListPrompts)]
         (start silent))
  = [1; 2; 3].
Proof.
  pose proof (request_ids_count_from_one 5 None
                [("initialize", PNil); ("tools/list", PListTools);
                 ("prompts/list", PListPrompts)]
                (start silent) _ _ eq_refl eq_refl eq_refl) as (Hids & _).
  exact Hids.
Defined.

Lemma guards_return_without_io_witness :
  run (OpInitialize me) 5 None (start silent)
  = (Fail ErrNotConnected, start silent)
  /\ run (OpCallTool "search" []) 5 None (start silent)
     = (Fail ErrNotInitialized, start silent).
Proof.
  destruct (guards_return_without_io (start silent)) as [Hinit Hops].
  split.
  - apply Hinit. reflexivity.
  - apply Hops; reflexivity.
Defined.

(** C7, as stated, fails: the wait for the child fails and [Close]
    returns no error. *)
Lemma wait_error_is_dropped :
  let (r, after) := Transport.StdioClose child (boot waitFails) in
  Transport.calls (snd after)
  = [Transport.PipeClose 0%nat; Transport.PipeClose 1%nat;
     Transport.PipeClose 2%nat; Transport.ProcessKill 11%nat;
     Transport.CmdWait 10%nat]
  /\ fst (Transport.sys (Transport.CmdWait 10%nat) waitFails)
     = Some (ErrNew "signal: killed")
  /\ r = None.
Proof. vm_compute. repeat split. Qed.

Lemma StdioClose_steps_witness :
  Transport.StdioClose child (boot noFailure)
  = (None,
     (Transport.NewStdioTransport "echo" ["hello"],
      {| Transport.kernel := noFailure;
         Transport.calls :=
           [Transport.PipeClose 0%nat; Transport.PipeClose 1%nat;
            Transport.PipeClose 2%nat; Transport.ProcessKill 11%nat;
            Transport.CmdWait 10%nat] |})).
Proof.
  exact (StdioClose_steps child (boot noFailure) eq_refl).
Defined.

Lemma DiscoverAll_appends_bridge_witness :
  fst (Discovery.DiscoverAll Discovery.NewDiscovery "localhost" tt)
  = [Discovery.dockerMCP Discovery.NewDiscovery].
Proof.
  destruct (DiscoverAll_appends_bridge Discovery.NewDiscovery "localhost" tt)
    as (_ & _ & Honly).
  apply Honly.
  - intros address t k0. reflexivity.
  - intros k0 out Hout. injection Hout as <-. vm_compute. reflexivity.
Defined.

(** The bridge descriptor is appended next to a port-probed descriptor
    for the same address. *)
Example DiscoverAll_keeps_duplicate :
  map (fun server => (Discovery.Address server, Discovery.Port server))
    (fst (Discovery.DiscoverAll Discovery.NewDiscovery "localhost"
            {| listening := ["localhost:8811"]; docker := false;
               ps := None |}))
  = [("localhost", 8811); ("localhost", 8811)].
Proof. vm_compute. reflexivity. Qed.

End Scenarios.

(** * Further properties *)

(** ** Sessions of the client *)

Section SessionFacts.
Import Mcp Client.
Context {W Ctx : Type}.
Context `{Transport.Transport W Ctx} `{Transport.Clock W Ctx}.
Context `{Platform} `{Json}.
Context `{Unmarshal InitializeResponse} `{Unmarshal ListToolsResponse}
        `{Unmarshal CallToolResponse} `{Unmarshal ListResourcesResponse}
        `{Unmarshal ReadResourceResponse} `{Unmarshal ListPromptsResponse}
        `{Unmarshal GetPromptResponse}.

Lemma coherent_cleared (c : Client) (conn : bool) :
  coherent (set_flags c conn false).
Proof. intros Hi. discriminate Hi. Qed.

Lemma coherent_bumped (s : State W) :
  coherent (client s) -> coherent (client (snd (nextRequestID s))).
Proof. intros Hc. exact Hc. Qed.

Lemma Connect_coherent (ctx : Ctx) (s : State W) :
  coherent (client s) -> coherent (client (snd (Connect ctx s))).
Proof.
  intros Hc. unfold Connect.
  destruct (connected (client s)) eqn:Hconn; [exact Hc|].
  destruct (Transport.Connect ctx (world s)) as [[err|] w]; simpl.
  - exact Hc.
  - intros Hi. destruct (Hc Hi) as (Hcon & _). congruence.
Qed.

Lemma Disconnect_coherent (s : State W) :
  coherent (client s) -> coherent (client (snd (Disconnect s))).
Proof.
  intros Hc. unfold Disconnect.
  destruct (connected (client s)); simpl; [|exact Hc].
  destruct (Transport.Close (world s)) as [err w]. simpl.
  intros Hi. discriminate Hi.
Qed.

Lemma CheckConnection_coherent (s : State W) :
  coherent (client s) -> coherent (client (snd (CheckConnection s))).
Proof.
  intros Hc. unfold CheckConnection.
  destruct (Transport.IsConnected (world s)); simpl;
    [exact Hc | apply coherent_cleared].
Qed.

Lemma initializeHandshake_guard (fuel : nat) (ctx : Ctx)
    (clientInfo : ClientInfo) (s s' : State W) :
  initializeHandshake fuel ctx clientInfo s = (Ok tt, s') ->
  connected (client s) = true.
Proof.
  unfold initializeHandshake, IsConnected.
  destruct (connected (client s)); [reflexivity | discriminate].
Qed.

Lemma run_coherent (op : Operation) (fuel : nat) (ctx : Ctx) (s : State W) :
  coherent (client s) -> coherent (client (snd (run op fuel ctx s))).
Proof.
  intros Hc. destruct (run op fuel ctx s) as [r s'] eqn:Hrun. simpl.
  destruct (needs_initialized op) eqn:Hop.
  - apply operation_effect in Hrun as (evs & _ & Hcases); [|exact Hop].
    destruct Hcases as [(_ & _ & ->) | (_ & [-> | [[-> _] | [-> _]]])];
      try apply coherent_cleared; exact Hc.
  - destruct op; try discriminate Hop. unfold run, Initialize in Hrun.
    destruct (initializeHandshake fuel ctx clientInfo s) as [r0 s0] eqn:Hhs.
    pose proof Hhs as Hguard.
    apply initializeHandshake_effect in Hhs as (evs & _ & _ & Hcases).
    destruct Hcases as [(_ & (e & -> & _) & Hcl) | (_ & Hcases)].
    + injection Hrun as _ <-. rewrite Hcl. apply coherent_cleared.
    + destruct Hcases as [(Hne & Hcl) | (-> & Hi & Hconn & Hsi & Hcaps)].
      * assert (Hs : s0 = s')
          by (destruct r0 as [[]| |]; [congruence | |]; now injection Hrun).
        subst s0. destruct Hcl as [-> | ->]; exact Hc.
      * apply initializeHandshake_guard in Hguard.
        unfold sendInitialized in Hrun.
        destruct (Transport.Send initializedNotification (world s0))
          as [[err|] w]; injection Hrun as _ <-; simpl; intros _;
          (split; [congruence | split; assumption]).
Qed.

(** Every client reached from [NewClient] through the public methods is
    coherent: it is never initialized without being connected and
    holding the identity and capabilities of a server. *)
Theorem session_keeps_coherence (config : ClientConfig) (w : W)
    (calls : list (PublicCall Ctx)) :
  coherent (client (session calls
                      {| client := NewClient config; world := w;
                         history := [] |})).
Proof.
  unfold session.
  assert (Hgen : forall s : State W,
             coherent (client s) -> coherent (client (fold_left perform calls s))).
  { induction calls as [|c rest IH]; intros s Hc; [exact Hc|].
    simpl. apply IH. destruct c; simpl.
    - now apply Connect_coherent.
    - now apply Disconnect_coherent.
    - now apply CheckConnection_coherent.
    - now apply run_coherent. }
  apply Hgen. intros Hi. discriminate Hi.
Qed.

(** What a failed transport call of a request leaves: an error, and a
    client that is marked neither connected nor initialized. *)
Lemma request_failure_marks_disconnected (op : Operation) (fuel : nat)
    (ctx : Ctx) (s : State W) r s' :
  run op fuel ctx s = (r, s') ->
  existsb request_io_failed (added s s') = true ->
  client s' = set_flags (client (snd (nextRequestID s))) false false.
Proof.
  intros Hrun Hfailed.
  destruct (needs_initialized op) eqn:Hop.
  - apply operation_effect in Hrun as (evs & Hh & Hcases); [|exact Hop].
    rewrite (existsb_added s s' evs Hh) in Hfailed.
    destruct Hcases as [(_ & _ & Hc) | (Hf & _)]; [exact Hc | congruence].
  - destruct op; try discriminate Hop. unfold run, Initialize in Hrun.
    destruct (initializeHandshake fuel ctx clientInfo s) as [r0 s0] eqn:Hhs.
    apply initializeHandshake_effect in Hhs as (evs & Hh & _ & Hcases).
    destruct Hcases as [(Hf & (e & -> & _) & Hc) | (Hf & Hcases)].
    + injection Hrun as _ <-. exact Hc.
    + exfalso. destruct Hcases as [(Hne & _) | (-> & _)].
      * assert (Hsame : s0 = s')
          by (destruct r0 as [[]| |]; [congruence | |]; now injection Hrun).
        subst s0. rewrite (existsb_added s s' evs Hh) in Hfailed. congruence.
      * unfold sendInitialized in Hrun.
        destruct (Transport.Send initializedNotification (world s0))
          as [sent w].
        assert (Hh' : history s' = history s
                      ++ (evs ++ [EvSend initializedNotification sent])).
        { destruct sent; injection Hrun as <- <-; simpl;
            now rewrite Hh, <- app_assoc. }
        rewrite (existsb_added s s' _ Hh'), existsb_app, Hf in Hfailed.
        destruct sent; discriminate Hfailed.
Qed.

(** After an operation lost its transport, [Disconnect] finds the client
    already marked disconnected: it returns nil, does not call [Close]
    on the transport, and does not clear the server identity. *)
Theorem Disconnect_after_failure_skips_Close (op : Operation) (fuel : nat)
    (ctx : Ctx) (s : State W) r s' :
  run op fuel ctx s = (r, s') ->
  existsb request_io_failed (added s s') = true ->
  Disconnect s' = (None, s')
  /\ GetServerInfo (snd (Disconnect s')) = GetServerInfo s.
Proof.
  intros Hrun Hfailed.
  pose proof (request_failure_marks_disconnected _ _ _ _ _ _ Hrun Hfailed)
    as Hc.
  assert (Hd : Disconnect s' = (None, s'))
    by (apply Disconnect_when_disconnected; now rewrite Hc).
  split; [exact Hd|]. rewrite Hd. unfold GetServerInfo. simpl.
  now rewrite Hc.
Qed.

(** [Disconnect] on a connected client closes the transport once and
    leaves a client on which every request fails locally, without a
    transport call, whatever [Close] answered. *)
Theorem Disconnect_then_local_errors (s : State W) (op : Operation)
    (fuel : nat) (ctx : Ctx) :
  connected (client s) = true ->
  let s1 := snd (Disconnect s) in
  added s s1 = [EvClose (fst (Disconnect s))]
  /\ IsConnected s1 = false
  /\ IsInitialized s1 = false
  /\ GetServerInfo s1 = None
  /\ GetServerCapabilities s1 = None
  /\ run op fuel ctx s1
     = (Fail (if needs_initialized op then ErrNotInitialized
              else ErrNotConnected), s1).
Proof.
  intros Hconn. unfold Disconnect. rewrite Hconn. simpl negb. cbv iota.
  destruct (Transport.Close (world s)) as [err w]. simpl.
  split; [apply added_app; reflexivity|].
  repeat (split; [reflexivity|]).
  destruct op; reflexivity.
Qed.

(** [Connect] calls the transport only when the client is not
    connected, and once.  When the transport answers nil the client is
    connected, and a further [Connect] changes nothing and makes no
    call; when it answers an error the client is as before and
    [Connect] returns that error, wrapped. *)
Theorem Connect_once (ctx : Ctx) (s : State W) :
  connected (client s) = false ->
  let answer := fst (Transport.Connect ctx (world s)) in
  let (r, s1) := Connect ctx s in
  added s s1 = [EvConnect answer]
  /\ world s1 = snd (Transport.Connect ctx (world s))
  /\ match answer with
     | None =>
         r = Ok tt
         /\ IsConnected s1 = true
         /\ initialized (client s1) = initialized (client s)
         /\ forall ctx', Connect ctx' s1 = (Ok tt, s1)
     | Some cause =>
         r = Fail (ErrWrap "failed to connect transport" cause)
         /\ client s1 = client s
     end.
Proof.
  intros Hconn. unfold Connect. rewrite Hconn.
  destruct (Transport.Connect ctx (world s)) as [[err|] w]; simpl;
    (split; [apply added_app; reflexivity|]); (split; [reflexivity|]).
  - split; reflexivity.
  - repeat (split; [reflexivity|]). intros ctx'. reflexivity.
Qed.

(** Only a failed transport call of the request, or the health check of
    [CallTool], takes the connection away: in every other outcome
    (success, server error, undecodable result, timeout, local guard)
    the connected flag is as before and an initialized client stays
    initialized; the six operations then also leave the server identity
    and capabilities as they were. *)
Theorem only_transport_failure_disconnects (op : Operation) (fuel : nat)
    (ctx : Ctx) (s : State W) r s' :
  run op fuel ctx s = (r, s') ->
  existsb request_io_failed (added s s') = false ->
  r <> Fail (ErrWrap "connection check failed"
               (ErrNew "transport disconnected")) ->
  connected (client s') = connected (client s)
  /\ (initialized (client s) = true -> initialized (client s') = true)
  /\ (needs_initialized op = true ->
      initialized (client s') = initialized (client s)
      /\ serverInfo (client s') = serverInfo (client s)
      /\ serverCapabilities (client s') = serverCapabilities (client s)).
Proof.
  intros Hrun Hnone Hcheck.
  destruct (needs_initialized op) eqn:Hop.
  - apply operation_effect in Hrun as (evs & Hh & Hcases); [|exact Hop].
    rewrite (existsb_added s s' evs Hh) in Hnone.
    destruct Hcases as [(Hf & _) | (_ & [-> | [[-> _] | [_ Hr]]])];
      [congruence | | | contradiction];
      (split; [reflexivity|]); (split; [tauto|]); intros _; repeat split.
  - destruct op; try discriminate Hop. unfold run, Initialize in Hrun.
    destruct (initializeHandshake fuel ctx clientInfo s) as [r0 s0] eqn:Hhs.
    apply initializeHandshake_effect in Hhs as (evs & Hh & _ & Hcases).
    destruct Hcases as [(Hf & (e & -> & _) & Hc) | (Hf & Hcases)].
    + injection Hrun as _ <-.
      rewrite (existsb_added s s0 evs Hh) in Hnone. congruence.
    + destruct Hcases as [(Hne & Hcl) | (-> & Hi & Hconn & _)].
      * assert (Hsame : s0 = s')
          by (destruct r0 as [[]| |]; [congruence | |]; now injection Hrun).
        subst s0. destruct Hcl as [-> | ->];
          (split; [reflexivity|]); (split; [tauto | discriminate]).
      * unfold sendInitialized in Hrun.
        destruct (Transport.Send initializedNotification (world s0))
          as [[err|] w]; injection Hrun as _ <-; simpl;
          (split; [exact Hconn|]); (split; [now intros _ | discriminate]).
Qed.

End SessionFacts.

(** ** Requests and responses *)

Section RequestFacts.
Import Mcp Client.
Context {W Ctx : Type}.
Context `{Transport.Transport W Ctx} `{Transport.Clock W Ctx}.
Context `{Platform} `{Json}.
Context `{Unmarshal InitializeResponse} `{Unmarshal ListToolsResponse}
        `{Unmarshal CallToolResponse} `{Unmarshal ListResourcesResponse}
        `{Unmarshal ReadResourceResponse} `{Unmarshal ListPromptsResponse}
        `{Unmarshal GetPromptResponse}.

Lemma receiveLoop_discards (fuel : nat) (responseCtx : Ctx) (id : Z) :
  forall (s : State W) (response : Message) (s' : State W),
    receiveLoop fuel responseCtx id s = (Ok response, s') ->
    exists discarded,
      history s'
      = history s ++ map (fun m => EvReceive (inr m)) discarded
          ++ [EvReceive (inr response)]
      /\ Forall (fun m => isMatchingID (ID m) id = false) discarded
      /\ isMatchingID (ID response) id = true
      /\ client s' = client s.
Proof.
  induction fuel as [|fuel IH]; intros s response s' Hrun; simpl in Hrun;
    [discriminate|].
  destruct (Transport.Done responseCtx (world s)); [discriminate|].
  destruct (Transport.Receive (world s)) as [[[err|m] w]|];
    [discriminate| |discriminate].
  simpl in Hrun. destruct (isMatchingID (ID m) id) eqn:Hm.
  - injection Hrun as <- <-. exists []. simpl.
    repeat split; [constructor | exact Hm].
  - apply IH in Hrun as (discarded & Hh & Hall & Hmatch & Hc).
    exists (m :: discarded). simpl in Hh |- *.
    rewrite Hh, <- app_assoc. repeat split; try assumption.
    now constructor.
Qed.

(** The response the loop returns carries the identifier of the
    request; every message received before it carried another one and
    is gone: the loop neither keeps nor replays it. *)
Theorem receiveLoop_returns_first_match (fuel : nat) (responseCtx : Ctx)
    (id : Z) (s : State W) (response : Message) (s' : State W) :
  receiveLoop fuel responseCtx id s = (Ok response, s') ->
  exists discarded,
    added s s'
    = map (fun m => EvReceive (inr m)) discarded ++ [EvReceive (inr response)]
    /\ Forall (fun m => isMatchingID (ID m) id = false) discarded
    /\ isMatchingID (ID response) id = true
    /\ client s' = client s.
Proof.
  intros Hrun.
  apply receiveLoop_discards in Hrun as (discarded & Hh & Hrest).
  exists discarded. split; [now apply added_app | exact Hrest].
Qed.

(** With the transport gone, an operation makes no transport call.
    [CallTool] notices it in its health check: it takes no identifier
    and clears both flags.  The other five reach [sendRequest], which
    takes an identifier and gives up, the client still marked connected
    and initialized. *)
Theorem transport_gone_is_local (op : Operation) (fuel : nat) (ctx : Ctx)
    (s : State W) :
  needs_initialized op = true ->
  initialized (client s) = true ->
  Transport.IsConnected (world s) = false ->
  match op with
  | OpCallTool _ _ =>
      run op fuel ctx s
      = (Fail (ErrWrap "connection check failed"
                 (ErrNew "transport disconnected")),
         with_client s (set_flags (client s) false false))
  | _ =>
      run op fuel ctx s
      = (Fail (ErrWrap (request_failed_message op)
                 (ErrNew "transport disconnected")),
         snd (nextRequestID s))
  end.
Proof.
  intros Hop Hi Hdown.
  destruct op; try discriminate Hop;
    unfold run, ListTools, CallTool, ListResources, ReadResource, ListPrompts,
      GetPrompt, IsInitialized, CheckConnection, roundTrip, sendRequest;
    rewrite Hi; simpl; rewrite Hdown; reflexivity.
Qed.

(** A response that carries an error object makes the operation return
    the error "<operation> error: <message>", whatever result comes with
    it, the client being as connected and initialized as before. *)
Theorem server_error_is_reported (op : Operation) (fuel : nat) (ctx : Ctx)
    (s : State W) (response : Message) (w1 w2 : W) (e : ErrorInfo) :
  let id := fst (nextRequestID s) in
  let request := NewRequest (VInt64 id) (fst (request_of op))
                   (snd (request_of op)) in
  guard_passes op (client s) = true ->
  Transport.IsConnected (world s) = true ->
  Transport.Send request (world s) = (None, w1) ->
  Transport.Done (Transport.WithTimeout ctx (timeout (client s)) w1) w1
  = false ->
  Transport.Receive w1 = Some (inr response, w2) ->
  isMatchingID (ID response) id = true ->
  Error response = Some e ->
  exists s',
    run op (S fuel) ctx s
    = (Fail (ErrNew (operation_name op ++ " error: " ++ ei_Message e)), s')
    /\ client s' = client (snd (nextRequestID s))
    /\ added s s' = [EvSend request None; EvReceive (inr response)].
Proof.
  intros id request Hguard Hup Hsend Hdone Hrecv Hmatch Herr.
  unfold guard_passes in Hguard.
  assert (Hround : sendRequest (S fuel) ctx (fst (request_of op))
                     (snd (request_of op)) s
                   = (Ok response,
                      observed (observed (snd (nextRequestID s)) w1
                                  (EvSend request None))
                        w2 (EvReceive (inr response)))).
  { unfold sendRequest. simpl. rewrite Hup. simpl.
    fold id. fold request. unfold request in Hsend |- *. unfold id in Hsend |- *.
    simpl in Hsend. rewrite Hsend. simpl. rewrite Hdone, Hrecv. simpl.
    unfold id in Hmatch. simpl in Hmatch. rewrite Hmatch. reflexivity. }
  eexists. split; [|split].
  - destruct op; simpl in Hguard, Hround |- *;
      unfold Initialize, initializeHandshake, ListTools, CallTool,
        ListResources, ReadResource, ListPrompts, GetPrompt, IsConnected,
        IsInitialized, CheckConnection, roundTrip;
      rewrite Hguard; simpl negb; cbv iota; rewrite ?Hup; simpl negb;
      cbv iota; rewrite Hround; unfold decode; rewrite Herr; reflexivity.
  - reflexivity.
  - apply added_app. simpl. now rewrite <- app_assoc.
Qed.

(** When [Initialize] succeeds, the identity and capabilities the client
    reports are those decoded from a response that arrived during the
    call, and the client is connected and initialized. *)
Theorem Initialize_stores_server_identity (fuel : nat) (ctx : Ctx)
    (clientInfo : ClientInfo) (s s' : State W) :
  Initialize fuel ctx clientInfo s = (Ok tt, s') ->
  exists response initResponse,
    In (EvReceive (inr response)) (added s s')
    /\ decode "initialize" response = inr initResponse
    /\ GetServerInfo s' = Some (ires_ServerInfo initResponse)
    /\ GetServerCapabilities s' = Some (ires_Capabilities initResponse)
    /\ IsConnected s' = true
    /\ IsInitialized s' = true.
Proof.
  unfold Initialize. intros Hrun.
  destruct (initializeHandshake fuel ctx clientInfo s) as [r0 s0] eqn:Hhs.
  destruct r0 as [[]| |]; try discriminate.
  pose proof (initializeHandshake_guard _ _ _ _ _ Hhs) as Hconn.
  unfold initializeHandshake in Hhs. unfold IsConnected in Hhs.
  rewrite Hconn in Hhs. simpl in Hhs.
  match type of Hhs with
  | context [sendRequest ?f ?c ?m ?p s] =>
      destruct (sendRequest f c m p s) as [r1 s1] eqn:Hsend
  end.
  destruct r1 as [response|e|]; try discriminate.
  destruct (decode "initialize" response) as [err|initResponse] eqn:Hdec;
    [discriminate|].
  injection Hhs as <-.
  pose proof (sendRequest_effect _ _ _ _ _ _ _ Hsend) as (evs0 & _ & _ & Hcases).
  assert (Hc1 : connected (client s1) = true).
  { destruct Hcases as [(_ & (e & He & _) & _) | (_ & -> & _)];
      [discriminate | exact Hconn]. }
  unfold sendRequest in Hsend. destruct (nextRequestID s) as [id sb] eqn:Hnext.
  assert (Hhb : history sb = history s)
    by (unfold nextRequestID in Hnext; now injection Hnext as _ <-).
  destruct (Transport.IsConnected (world sb)); simpl in Hsend; [|discriminate].
  match type of Hsend with
  | context [Transport.Send ?m ?w] =>
      destruct (Transport.Send m w) as [[err|] w1]
  end; [discriminate|].
  apply receiveLoop_discards in Hsend as (discarded & Hh & _).
  unfold sendInitialized in Hrun.
  destruct (Transport.Send initializedNotification _) as [[err|] w2];
    [discriminate|].
  injection Hrun as <-.
  exists response, initResponse. split.
  - match goal with
    | |- In _ (added s ?final) =>
        assert (Hh' : exists request,
                   history final
                   = history s
                       ++ (EvSend request None
                             :: map (fun m => EvReceive (inr m)) discarded
                             ++ [EvReceive (inr response)]
                             ++ [EvSend initializedNotification None]))
    end.
    { eexists. simpl. simpl in Hh. rewrite Hh, Hhb.
      repeat rewrite <- app_assoc. reflexivity. }
    destruct Hh' as (request & Hh').
    rewrite (added_app _ _ _ Hh'). right. rewrite !in_app_iff.
    right. left. now left.
  - split; [exact Hdec|]. repeat split. exact Hc1.
Qed.

End RequestFacts.

(** ** The builder *)

Section BuilderFacts.
Import Builder.

Lemma apply_keeps_transport (c : Setter) (b : ClientBuilder) :
  sets_transport c = false -> transport (apply b c) = transport b.
Proof. destruct c; simpl; intros Hc; try discriminate; reflexivity. Qed.

Lemma apply_sets_transport (c : Setter) (b b0 : ClientBuilder) :
  sets_transport c = true -> transport (apply b c) = transport (apply b0 c).
Proof. destruct c; simpl; intros Hc; try discriminate; reflexivity. Qed.

Lemma fold_keeps_transport (calls : list Setter) :
  forall b,
    forallb (fun c => negb (sets_transport c)) calls = true ->
    transport (fold_left apply calls b) = transport b.
Proof.
  induction calls as [|c rest IH]; intros b Hall; [reflexivity|].
  simpl in Hall. apply andb_true_iff in Hall as [Hc Hrest].
  simpl. rewrite IH by exact Hrest.
  apply apply_keeps_transport. now apply negb_true_iff.
Qed.

(** Whatever chain of setters built it, a client out of [Build] is
    disconnected, uninitialized, with its counter at zero and a timeout
    that is never zero; it holds the transport set last in the chain, or
    a TCP transport to localhost:8811 when the chain set none or set nil
    last, and the builder keeps that transport. *)
Theorem Build_of_chain (calls : list Setter) :
  let '(b', (t, c)) := Build (chain calls) in
  Client.timeout c <> 0
  /\ Client.connected c = false
  /\ Client.initialized c = false
  /\ Client.requestID c = 0
  /\ Client.serverInfo c = None
  /\ transport b' = Some t
  /\ (forallb (fun c => negb (sets_transport c)) calls = true ->
      t = Transport.TCP (Transport.NewTCPTransport "localhost" 8811))
  /\ (forall before setter after,
         calls = before ++ setter :: after ->
         sets_transport setter = true ->
         forallb (fun c => negb (sets_transport c)) after = true ->
         match transport (apply NewClientBuilder setter) with
         | Some t' => t = t'
         | None => t = Transport.TCP (Transport.NewTCPTransport "localhost" 8811)
         end).
Proof.
  unfold Build. simpl.
  split.
  { unfold Client.NewClient. simpl.
    destruct (Client.cfg_Timeout (config (chain calls)) =? 0) eqn:Hz.
    - discriminate.
    - now apply Z.eqb_neq. }
  repeat (split; [reflexivity|]).
  split.
  - intros Hnone. unfold chain.
    rewrite (fold_keeps_transport calls NewClientBuilder Hnone). reflexivity.
  - intros before setter after -> Hset Hafter. unfold chain.
    rewrite fold_left_app. simpl.
    rewrite (fold_keeps_transport after _ Hafter).
    rewrite (apply_sets_transport setter (fold_left apply before
                                            NewClientBuilder)
               NewClientBuilder Hset).
    now destruct (transport (apply NewClientBuilder setter)).
Qed.

End BuilderFacts.

(** ** The data path of the transports *)

Section WireFacts.
Import Transport Wire.
Context {K Ctx : Type} `{IO K Ctx} `{OS K} `{Codec}.

Lemma NewStdioTransport_wired (command : string) (args : list string) :
  stdio_wired (NewStdioTransport command args).
Proof. intros Hc. discriminate Hc. Qed.

Lemma NewTCPTransport_wired (host : string) (port : Z) :
  tcp_wired (NewTCPTransport host port).
Proof. intros Hc. discriminate Hc. Qed.

Lemma StdioConnect_wired (ctx : Ctx) (s : StdioTransport) (k : K) :
  stdio_wired s -> stdio_wired (fst (snd (StdioConnect ctx s k))).
Proof.
  intros Hw. unfold StdioConnect.
  destruct (stdio_connected s) eqn:Hc; [exact Hw|].
  destruct (CommandContext ctx (stdio_command s) (stdio_args s) k) as [c k1].
  destruct (StdinPipe c k1) as [[err|stdin] k2];
    [intros Hc'; simpl in Hc'; congruence|].
  destruct (StdoutPipe c k2) as [[err|stdout] k3];
    [intros Hc'; simpl in Hc'; congruence|].
  destruct (StderrPipe c k3) as [[err|stderr] k4];
    [intros Hc'; simpl in Hc'; congruence|].
  destruct (Start c k4) as [[err|process] k5];
    [intros Hc'; simpl in Hc'; congruence|].
  intros _. simpl. exists c, process, stdin, stdout, stderr. repeat split.
Qed.

Lemma StdioClose_resets (s : StdioTransport) (k : Kernel K) :
  stdio_connected (fst (snd (StdioClose s k))) = false.
Proof.
  unfold StdioClose. destruct (stdio_connected s) eqn:Hc; simpl; [|exact Hc].
  unfold close_pipe, call.
  repeat match goal with
    | |- context [match ?x with _ => _ end] => destruct x; simpl
    end; reflexivity.
Qed.

Lemma stdioStep_wired (c : Call Ctx) (s : StdioTransport) (k : Kernel K) :
  stdio_wired s ->
  exists s' k', stdioStep c s k = Returns (s', k') /\ stdio_wired s'.
Proof.
  intros Hw. destruct c as [ctx| |message|]; simpl.
  - pose proof (StdioConnect_wired ctx s (kernel k) Hw) as Hw'.
    destruct (StdioConnect ctx s (kernel k)) as [r [s' k']].
    eexists; eexists; split; [reflexivity | exact Hw'].
  - destruct (StdioClose s k) as [r [s' k']] eqn:Hclose.
    eexists; eexists; split; [reflexivity|]. simpl.
    intros Hc. pose proof (StdioClose_resets s k) as Hr.
    rewrite Hclose in Hr. simpl in Hr. congruence.
  - unfold StdioSend. destruct (stdio_connected s) eqn:Hc; simpl.
    + destruct (Hw Hc) as (cmd & p & i & o & e & _ & _ & _ & _ & _ & Hwr).
      rewrite Hwr. destruct (MarshalMessage message) as [err|data].
      * eexists; eexists; split; [reflexivity | exact Hw].
      * destruct (Write i (data ++ newline) (kernel k)) as [[err|] k1].
        -- eexists; eexists; split; [reflexivity | exact Hw].
        -- destruct (Flush i k1) as [r k2].
           eexists; eexists; split; [reflexivity | exact Hw].
    + eexists; eexists; split; [reflexivity | exact Hw].
  - unfold StdioReceive. destruct (stdio_connected s) eqn:Hc; simpl.
    + destruct (Hw Hc) as (cmd & p & i & o & e & _ & _ & _ & _ & Hrd & _).
      rewrite Hrd.
      destruct (ReadBytes o (ascii_of_nat 10) (kernel k)) as [[err|line] k1].
      * eexists; eexists; split; [reflexivity | exact Hw].
      * destruct (UnmarshalMessage line);
          eexists; eexists; split; try reflexivity; exact Hw.
    + eexists; eexists; split; [reflexivity | exact Hw].
Qed.

(** Whatever sequence of [Connect], [Close], [Send] and [Receive] is
    made on a STDIO transport out of its constructor, no call runs into
    a nil reader or writer, and whenever the transport is connected it
    has its three pipes and its started process, so that [Close] makes
    its five calls. *)
Theorem stdio_transport_stays_wired (command : string) (args : list string)
    (script : list (Call Ctx)) (k : Kernel K) :
  exists s' k',
    drive stdioStep script (NewStdioTransport command args) k
    = Returns (s', k')
    /\ stdio_wired s'
    /\ (stdio_connected s' = true ->
        exists cmd process stdin stdout stderr,
          close_steps s'
          = [PipeClose stdin; PipeClose stdout; PipeClose stderr;
             ProcessKill process; CmdWait cmd]).
Proof.
  assert (Hgen : forall s k0,
             stdio_wired s ->
             exists s' k', drive stdioStep script s k0 = Returns (s', k')
                           /\ stdio_wired s').
  { induction script as [|c rest IH]; intros s k0 Hw.
    - exists s, k0. now split.
    - simpl. destruct (stdioStep_wired c s k0 Hw) as (s1 & k1 & -> & Hw1).
      now apply IH. }
  destruct (Hgen (NewStdioTransport command args) k
              (NewStdioTransport_wired command args)) as (s' & k' & Hrun & Hw).
  exists s', k'. split; [exact Hrun|]. split; [exact Hw|].
  intros Hc. destruct (Hw Hc) as (cmd & p & i & o & e & Hcmd & Hi & Ho & He & _).
  exists cmd, p, i, o, e. unfold close_steps. now rewrite Hcmd, Hi, Ho, He.
Qed.

Lemma TCPConnect_wired (ctx : Ctx) (t : TCPTransport) (k : K) :
  tcp_wired t -> tcp_wired (fst (snd (TCPConnect ctx t k))).
Proof.
  intros Hw. unfold TCPConnect.
  destruct (tcp_connected t) eqn:Hc; [exact Hw|].
  destruct (DialContext ctx (tcp_timeout t) _ k) as [[err|conn] k1]; simpl.
  - exact Hw.
  - intros _. exists conn. repeat split.
Qed.

Lemma TCPClose_closes (t : TCPTransport) (k : Kernel K) :
  tcp_wired t -> tcp_connected (fst (snd (TCPClose t k))) = false.
Proof.
  intros Hw. unfold TCPClose. destruct (tcp_connected t) eqn:Hc.
  - destruct (Hw Hc) as (conn & Hconn & _). rewrite Hconn.
    destruct (call (ConnClose conn) k). reflexivity.
  - simpl. exact Hc.
Qed.

Lemma tcpStep_wired (c : Call Ctx) (t : TCPTransport) (k : Kernel K) :
  tcp_wired t ->
  exists t' k', tcpStep c t k = Returns (t', k') /\ tcp_wired t'.
Proof.
  intros Hw. destruct c as [ctx| |message|]; simpl.
  - pose proof (TCPConnect_wired ctx t (kernel k) Hw) as Hw'.
    destruct (TCPConnect ctx t (kernel k)) as [r [t' k']].
    eexists; eexists; split; [reflexivity | exact Hw'].
  - pose proof (TCPClose_closes t k Hw) as Hr.
    destruct (TCPClose t k) as [r [t' k']].
    eexists; eexists; split; [reflexivity|]. simpl in *.
    intros Hc. congruence.
  - unfold TCPSend. destruct (tcp_connected t) eqn:Hc; simpl.
    + destruct (Hw Hc) as (conn & _ & _ & Hwr). rewrite Hwr.
      destruct (MarshalMessage message) as [err|data].
      * eexists; eexists; split; [reflexivity | exact Hw].
      * destruct (Write conn (data ++ newline) (kernel k)) as [[err|] k1].
        -- eexists; eexists; split; [reflexivity | exact Hw].
        -- destruct (Flush conn k1) as [[err|] k2];
             eexists; eexists; split; try reflexivity; exact Hw.
    + eexists; eexists; split; [reflexivity | exact Hw].
  - unfold TCPReceive. destruct (tcp_connected t) eqn:Hc; simpl.
    + destruct (Hw Hc) as (conn & _ & Hrd & _). rewrite Hrd.
      destruct (ReadBytes conn (ascii_of_nat 10) (kernel k))
        as [[err|line] k1].
      * eexists; eexists; split; [reflexivity | exact Hw].
      * destruct (UnmarshalMessage line);
          eexists; eexists; split; try reflexivity; exact Hw.
    + eexists; eexists; split; [reflexivity | exact Hw].
Qed.

(** Whatever sequence of calls is made on a TCP transport out of its
    constructor, no call runs into a nil reader or writer; a [Close]
    then leaves it not connected, and [Send] and [Receive] on the closed
    transport fail with "transport not connected" without touching the
    operating system. *)
Theorem tcp_transport_closes (host : string) (port : Z)
    (script : list (Call Ctx)) (k : Kernel K) :
  exists t k1,
    drive tcpStep script (NewTCPTransport host port) k = Returns (t, k1)
    /\ tcp_wired t
    /\ let closed := fst (snd (TCPClose t k1)) in
       TCPIsConnected closed = false
       /\ forall message k2,
           TCPSend message closed k2
           = Returns (Some (ErrNew "transport not connected"), k2)
           /\ TCPReceive closed k2
              = Returns (inl (ErrNew "transport not connected"), k2).
Proof.
  assert (Hgen : forall t k0,
             tcp_wired t ->
             exists t' k', drive tcpStep script t k0 = Returns (t', k')
                           /\ tcp_wired t').
  { induction script as [|c rest IH]; intros t k0 Hw.
    - exists t, k0. now split.
    - simpl. destruct (tcpStep_wired c t k0 Hw) as (t1 & k1 & -> & Hw1).
      now apply IH. }
  destruct (Hgen (NewTCPTransport host port) k (NewTCPTransport_wired host port))
    as (t & k1 & Hrun & Hw).
  exists t, k1. split; [exact Hrun|]. split; [exact Hw|].
  pose proof (TCPClose_closes t k1 Hw) as Hclosed. simpl.
  split; [exact Hclosed|].
  intros message k2. unfold TCPSend, TCPReceive.
  unfold TCPIsConnected in *. rewrite Hclosed. split; reflexivity.
Qed.

(** A [Connect] of the STDIO transport that fails after it created
    pipes leaves the transport not connected with the pipes in it, and
    [Close] on that transport returns nil without closing them. *)
Theorem StdioConnect_failure_keeps_pipes (ctx : Ctx) (s : StdioTransport)
    (k : K) (err : error) (s' : StdioTransport) (k' : K) :
  stdio_connected s = false ->
  StdioConnect ctx s k = (Some err, (s', k')) ->
  stdio_connected s' = false
  /\ (forall kk : Kernel K, StdioClose s' kk = (None, (s', kk)))
  /\ (forall c k1 stdin k2,
         CommandContext ctx (stdio_command s) (stdio_args s) k = (c, k1) ->
         StdinPipe c k1 = (inr stdin, k2) ->
         stdio_stdin s' = Some stdin).
Proof.
  intros Hc Hrun. unfold StdioConnect in Hrun. rewrite Hc in Hrun.
  destruct (CommandContext ctx (stdio_command s) (stdio_args s) k)
    as [c k1] eqn:Hcmd.
  assert (Hgoal : stdio_connected s' = false
                  /\ (forall stdin k2, StdinPipe c k1 = (inr stdin, k2) ->
                                       stdio_stdin s' = Some stdin)).
  { destruct (StdinPipe c k1) as [[e1|stdin] k2].
    - injection Hrun as _ <- _. split; [exact Hc | discriminate].
    - destruct (StdoutPipe c k2) as [[e2|stdout] k3].
      + injection Hrun as _ <- _.
        split; [exact Hc | intros i kk Hi; now injection Hi as <- _].
      + destruct (StderrPipe c k3) as [[e3|stderr] k4].
        * injection Hrun as _ <- _.
          split; [exact Hc | intros i kk Hi; now injection Hi as <- _].
        * destruct (Start c k4) as [[e4|process] k5]; [|discriminate].
          injection Hrun as _ <- _.
          split; [exact Hc | intros i kk Hi; now injection Hi as <- _]. }
  destruct Hgoal as [Hc' Hin]. split; [exact Hc'|]. split.
  - intros kk. unfold StdioClose. now rewrite Hc'.
  - intros c0 k0 stdin k2 Hcmd0 Hpipe. injection Hcmd0 as <- <-.
    now apply (Hin stdin k2).
Qed.

End WireFacts.

(** ** Strings of the discovery engine *)

Section StringFacts.
Import Discovery.

Lemma append_assoc3 (a b c : string) :
  ((a ++ b) ++ c = a ++ (b ++ c))%string.
Proof. induction a as [|x a IH]; simpl; [reflexivity | now rewrite IH]. Qed.

Lemma prefix_append (p r : string) : String.prefix p (p ++ r) = true.
Proof.
  induction p as [|x p IH]; simpl; [now destruct r|].
  destruct (ascii_dec x x); [exact IH | contradiction].
Qed.

Lemma prefix_split (p s : string) :
  String.prefix p s = true -> exists r, s = (p ++ r)%string.
Proof.
  revert s. induction p as [|x p IH]; intros s Hp.
  - now exists s.
  - destruct s as [|y s]; [discriminate|]. simpl in Hp.
    destruct (ascii_dec x y) as [<-|]; [|discriminate].
    destruct (IH s Hp) as (r & ->). now exists r.
Qed.

Lemma Contains_unfold (s sub : string) :
  Contains s sub
  = if String.prefix sub s then true
    else match s with
         | EmptyString => false
         | String _ rest => Contains rest sub
         end.
Proof. destruct s; reflexivity. Qed.

(** [Contains] is the substring test. *)
Lemma Contains_spec (s sub : string) :
  Contains s sub = true <-> exists a b, s = (a ++ sub ++ b)%string.
Proof.
  split.
  - induction s as [|x s IH]; rewrite Contains_unfold;
      destruct (String.prefix sub _) eqn:Hp;
      try (intros _; apply prefix_split in Hp as (r & Hr);
           now exists ""%string, r).
    + discriminate.
    + intros Hc. destruct (IH Hc) as (a & b & ->).
      now exists (String x a), b.
  - intros (a & b & ->). induction a as [|x a IH]; rewrite Contains_unfold.
    + simpl append. now rewrite prefix_append.
    + simpl append.
      destruct (String.prefix sub (String x (a ++ sub ++ b)));
        [reflexivity | exact IH].
Qed.

Lemma Contains_inner (s x y z : string) :
  Contains s (x ++ y ++ z) = true -> Contains s y = true.
Proof.
  intros Hc. apply Contains_spec in Hc as (a & b & ->).
  apply Contains_spec. exists (a ++ x)%string, (z ++ b)%string.
  now rewrite !append_assoc3.
Qed.

Lemma Split_free (sep : ascii) (s : string) :
  free_of sep s = true -> Split s sep = [s].
Proof.
  induction s as [|c s IH]; simpl; [reflexivity|].
  intros Hf. apply andb_true_iff in Hf as [Hc Hs].
  apply negb_true_iff in Hc. rewrite Hc, (IH Hs). reflexivity.
Qed.

Lemma Split_field (sep : ascii) (a b : string) :
  free_of sep a = true ->
  Split (a ++ String sep b) sep = a :: Split b sep.
Proof.
  induction a as [|c a IH]; simpl; intros Hf.
  - now rewrite Ascii.eqb_refl.
  - apply andb_true_iff in Hf as [Hc Ha].
    apply negb_true_iff in Hc. rewrite Hc, (IH Ha). reflexivity.
Qed.

(** Splitting joined fields gives the fields back. *)
Lemma Split_join_fields (sep : ascii) (fields : list string) :
  fields <> [] ->
  forallb (free_of sep) fields = true ->
  Split (join_fields sep fields) sep = fields.
Proof.
  induction fields as [|f rest IH]; intros Hne Hall; [congruence|].
  simpl in Hall. apply andb_true_iff in Hall as [Hf Hrest].
  destruct rest as [|g rest'].
  - simpl. now apply Split_free.
  - change (join_fields sep (f :: g :: rest'))
      with (f ++ String sep (join_fields sep (g :: rest')))%string.
    rewrite (Split_field sep f _ Hf), IH; [reflexivity | discriminate | exact Hrest].
Qed.

End StringFacts.

(** ** The discovery engine *)

Section EngineFacts.
Import Discovery Scan.
Context {K : Type} `{Host K} `{Strings}.

(** A container is taken for a server exactly when its name or image,
    in lower case, contains "mcp" or "context", or one of its port
    strings contains "8811" or "3000" anywhere: the keyword
    "model-context-protocol" never decides, and a port such as 30000 or
    18811 counts. *)
Theorem isMCPContainer_decides (container : DockerContainer) :
  isMCPContainer container
  = (Contains (ToLower (dc_Name container)) "mcp"
     || Contains (ToLower (dc_Image container)) "mcp"
     || Contains (ToLower (dc_Name container)) "context"
     || Contains (ToLower (dc_Image container)) "context"
     || existsb (fun portStr => Contains portStr "8811"
                                || Contains portStr "3000")
          (dc_Ports container)).
Proof.
  unfold isMCPContainer, mcpKeywords. simpl existsb.
  pose proof (Contains_inner (ToLower (dc_Name container))
                "model-" "context" "-protocol") as Hn.
  pose proof (Contains_inner (ToLower (dc_Image container))
                "model-" "context" "-protocol") as Hi.
  change ("model-" ++ "context" ++ "-protocol")%string
    with "model-context-protocol" in Hn, Hi.
  destruct (Contains (ToLower (dc_Name container)) "mcp"),
    (Contains (ToLower (dc_Image container)) "mcp"),
    (Contains (ToLower (dc_Name container)) "model-context-protocol"),
    (Contains (ToLower (dc_Image container)) "model-context-protocol"),
    (Contains (ToLower (dc_Name container)) "context") eqn:Hcn,
    (Contains (ToLower (dc_Image container)) "context") eqn:Hci;
    simpl; try reflexivity;
    try (specialize (Hn eq_refl); discriminate);
    try (specialize (Hi eq_refl); discriminate).
Qed.

Lemma join_fields_empty (sep : ascii) (fields : list string) :
  join_fields sep fields = EmptyString ->
  match fields with
  | _ :: _ :: _ => False
  | _ => True
  end.
Proof.
  destruct fields as [|f [|g rest]]; try exact (fun _ => I).
  change (join_fields sep (f :: g :: rest))
    with (f ++ String sep (join_fields sep (g :: rest)))%string.
  destruct f; discriminate.
Qed.

(** A line of the listing yields a container exactly when, once
    trimmed, it has at least four tab-separated fields, the container
    being made of the first four; any other line is skipped.  A
    container without published ports is such a line: its fourth field
    is empty and the tab before it is trimmed away. *)
Theorem parseLines_line (line : string) (fields : list string)
    (rest : list string) (containers : list DockerContainer) :
  TrimSpace line = join_fields tab fields ->
  fields <> [] ->
  forallb (free_of tab) fields = true ->
  parseLines (line :: rest) containers
  = match fields with
    | id :: name :: image :: ports :: _ =>
        parseLines rest
          (containers ++ [{| dc_ID := id; dc_Name := name; dc_Image := image;
                             dc_Ports := Split ports comma |}])
    | _ => parseLines rest containers
    end.
Proof.
  intros Htrim Hne Hfree. simpl parseLines. rewrite Htrim.
  destruct (join_fields tab fields) as [|c s] eqn:Hjoin.
  - apply join_fields_empty in Hjoin.
    destruct fields as [|f [|g more]]; [reflexivity | reflexivity | contradiction].
  - rewrite <- Hjoin, (Split_join_fields tab fields Hne Hfree).
    destruct fields as [|f1 [|f2 [|f3 [|f4 more]]]]; reflexivity.
Qed.

Lemma scanPorts_Forall (P : ServerInfo -> Prop) (d : Discovery)
    (host : string) (ports : list Z) :
  (forall port, In port ports -> P (tcpServer host port)) ->
  forall servers k,
    Forall P servers -> Forall P (fst (scanPorts d host ports servers k)).
Proof.
  induction ports as [|port rest IH]; intros Hports servers k Hall;
    [exact Hall|].
  simpl. destruct (isPortOpen d host port k) as [open k1].
  destruct open; apply IH; try (intros p Hp; apply Hports; now right);
    try exact Hall.
  apply Forall_app. split; [exact Hall|].
  constructor; [apply Hports; now left | constructor].
Qed.

Lemma scanContainers_Forall (P : ServerInfo -> Prop)
    (containers : list DockerContainer) :
  (forall c, isMCPContainer c = true -> P (dockerServer c)) ->
  forall servers,
    Forall P servers -> Forall P (scanContainers containers servers).
Proof.
  intros HP. induction containers as [|c rest IH]; intros servers Hall;
    [exact Hall|].
  simpl. destruct (isMCPContainer c) eqn:Hc; apply IH; try exact Hall.
  apply Forall_app. split; [exact Hall|].
  constructor; [now apply HP | constructor].
Qed.

(** Every descriptor of [DiscoverAll] carries a transport that is not
    connected, and is of one of three makes: the TCP descriptor of the
    host and one of the eight well-known ports, the descriptor of a
    container taken for a server, or the bridge descriptor. *)
Theorem DiscoverAll_descriptors (d : Discovery) (host : string) (k : K) :
  Forall (fun server =>
            Transport.VariantIsConnected (Transport server) = false
            /\ ((exists port, In port commonPorts
                              /\ server = tcpServer host port)
                \/ (exists container, isMCPContainer container = true
                                      /\ server = dockerServer container)
                \/ server = dockerMCP d))
    (fst (DiscoverAll d host k)).
Proof.
  set (P := fun server : ServerInfo =>
              Transport.VariantIsConnected (Transport server) = false
              /\ ((exists port, In port commonPorts
                                /\ server = tcpServer host port)
                  \/ (exists container, isMCPContainer container = true
                                        /\ server = dockerServer container)
                  \/ server = dockerMCP d)).
  unfold DiscoverAll.
  pose proof (scanPorts_Forall P d host commonPorts) as Htcp.
  unfold DiscoverCommonPorts, DiscoverTCPServers.
  specialize (Htcp (fun port Hp => conj eq_refl
                      (or_introl (ex_intro _ port (conj Hp eq_refl))))
                [] k (Forall_nil P)).
  destruct (scanPorts d host commonPorts [] k) as [tcpServers k1].
  simpl in Htcp.
  assert (Hdocker : Forall P (fst (DiscoverDockerServers d k1))).
  { unfold DiscoverDockerServers, isDockerAvailable.
    destruct (DockerVersion k1) as [[|] k2]; simpl; [|constructor].
    destruct (getDockerContainers k2) as [containers k3]. simpl.
    apply scanContainers_Forall; [|constructor].
    intros c Hc. split; [reflexivity|]. right. left. now exists c. }
  destruct (DiscoverDockerServers d k1) as [dockerServers k2].
  simpl in *.
  apply Forall_app. split; [apply Forall_app; split; assumption|].
  constructor; [|constructor]. split; [reflexivity|]. now right; right.
Qed.

Lemma scanPorts_filter (d : Discovery) (host : string) (ports : list Z) :
  (forall address t k, snd (DialTimeout address t k) = k) ->
  forall servers k,
    scanPorts d host ports servers k
    = (servers
         ++ map (tcpServer host)
              (filter (fun port => fst (isPortOpen d host port k)) ports), k).
Proof.
  intros Hpure. induction ports as [|port rest IH]; intros servers k.
  - simpl. now rewrite app_nil_r.
  - cbn [scanPorts filter].
    pose proof (Hpure (host ++ ":" ++ Strconv.FormatInt port)%string
                  (timeout d) k) as Hk.
    change (snd (isPortOpen d host port k) = k) in Hk.
    destruct (isPortOpen d host port k) as [open k1].
    cbn [snd] in Hk. subst k1. cbn [fst].
    destruct open; rewrite IH; [|reflexivity].
    cbn [map]. now rewrite <- app_assoc.
Qed.

(** On a host that a dial does not change, [DiscoverTCPServers] returns
    the descriptors of the ports that accept a connection, one per
    occurrence and in the order the ports were given. *)
Theorem DiscoverTCPServers_filters (d : Discovery) (host : string)
    (ports : list Z) (k : K) :
  (forall address t k0, snd (DialTimeout address t k0) = k0) ->
  DiscoverTCPServers d host ports k
  = (map (tcpServer host)
       (filter (fun port =>
                  fst (DialTimeout (host ++ ":" ++ Strconv.FormatInt port)
                         (timeout d) k))
          ports), k).
Proof.
  intros Hpure. unfold DiscoverTCPServers.
  now rewrite (scanPorts_filter d host ports Hpure).
Qed.

(** A scan on the host that keeps a record is the scan on the host
    itself, with one dial recorded for each port. *)
Lemma scanPorts_trace (d : Discovery) (host : string) (ports : list Z) :
  forall servers (k : K) (tr : list HostEvent),
    scanPorts d host ports servers (k, tr)
    = (fst (scanPorts d host ports servers k),
       (snd (scanPorts d host ports servers k),
        tr ++ map (fun port =>
                     Dialed (host ++ ":" ++ Strconv.FormatInt port)
                       (timeout d))
                ports)).
Proof.
  induction ports as [|port rest IH]; intros servers k tr.
  - simpl. now rewrite app_nil_r.
  - cbn [scanPorts map]. unfold isPortOpen.
    cbn [DialTimeout traced fst snd].
    destruct (DialTimeout (host ++ ":" ++ Strconv.FormatInt port)
                (timeout d) k) as [open k1].
    destruct open; rewrite IH, <- app_assoc; reflexivity.
Qed.

(** [DiscoverAll] dials the eight well-known ports of the host, each
    once and in their fixed order, whatever the dials answer; then it
    runs [docker version], and then [docker ps] exactly when
    [docker version] succeeded; it asks nothing else.  The record does
    not change what is discovered. *)
Theorem DiscoverAll_asks_in_order (d : Discovery) (host : string) (k : K)
    (tr : list HostEvent) :
  let dialed := snd (DiscoverCommonPorts d host k) in
  snd (snd (DiscoverAll d host (k, tr)))
  = tr ++ map (fun port =>
                 Dialed (host ++ ":" ++ Strconv.FormatInt port) (timeout d))
            commonPorts
      ++ AskedVersion :: (if fst (DockerVersion dialed) then [AskedPs]
                          else [])
  /\ fst (DiscoverAll d host (k, tr)) = fst (DiscoverAll d host k)
  /\ fst (snd (DiscoverAll d host (k, tr))) = snd (DiscoverAll d host k).
Proof.
  unfold DiscoverAll, DiscoverCommonPorts, DiscoverTCPServers.
  rewrite scanPorts_trace.
  destruct (scanPorts d host commonPorts [] k) as [tcpServers k1].
  cbn [fst snd].
  unfold DiscoverDockerServers, isDockerAvailable. simpl.
  destruct (DockerVersion k1) as [available k2]. simpl.
  destruct available; simpl.
  - unfold getDockerContainers. simpl.
    destruct (DockerPs k2) as [[out|] k3]; simpl;
      rewrite <- !app_assoc; repeat split.
  - rewrite <- app_assoc. repeat split.
Qed.

Lemma wrap64_in_range (z : Z) : in_int64 (wrap64 z) = true.
Proof.
  unfold in_int64, wrap64, min_int64, max_int64.
  pose proof (Z.mod_pos_bound (z + 2 ^ 63) (2 ^ 64) eq_refl).
  apply andb_true_iff. split; apply Z.leb_le; lia.
Qed.

Lemma portRange_counts (n : nat) :
  forall (fuel : nat) (port : Z) (ports : list Z),
    (n < fuel)%nat ->
    - 2 ^ 63 <= port ->
    port + Z.of_nat n <= 2 ^ 63 - 1 ->
    portRange fuel port (port + Z.of_nat n - 1) ports
    = Some (ports ++ map (fun i => port + Z.of_nat i) (seq 0 n)).
Proof.
  induction n as [|n IH]; intros fuel port ports Hfuel Hlo Hhi;
    (destruct fuel as [|fuel]; [lia|]); cbn [portRange].
  - destruct (Z.leb_spec port (port + Z.of_nat 0 - 1)) as [Hle|_]; [lia|].
    cbn [seq map]. now rewrite app_nil_r.
  - destruct (Z.leb_spec port (port + Z.of_nat (S n) - 1)) as [_|Hgt]; [|lia].
    rewrite wrap64_small by lia.
    replace (port + Z.of_nat (S n) - 1) with (port + 1 + Z.of_nat n - 1) by lia.
    rewrite IH by lia.
    rewrite <- app_assoc. cbn [seq map app]. f_equal. f_equal.
    rewrite Z.add_0_r. f_equal.
    rewrite <- seq_shift, map_map. apply map_ext. intros i. lia.
Qed.

Lemma portRange_never_ends (fuel : nat) :
  forall (port : Z) (ports : list Z),
    in_int64 port = true -> portRange fuel port max_int64 ports = None.
Proof.
  induction fuel as [|fuel IH]; intros port ports Hport; [reflexivity|].
  simpl. apply in_int64_bounds in Hport.
  replace (port <=? max_int64) with true
    by (symmetry; apply Z.leb_le; unfold max_int64; lia).
  apply IH, wrap64_in_range.
Qed.

(** [ScanPortRange] probes nothing when the range is empty, probes the
    ports from the first to the last in increasing order otherwise, and
    never ends when the last port is the largest integer, the counter
    wrapping around. *)
Theorem ScanPortRange_range (d : Discovery) (host : string)
    (startPort endPort : Z) (k : K) :
  in_int64 startPort = true ->
  in_int64 endPort = true ->
  (endPort < startPort ->
   forall fuel, ScanPortRange (S fuel) d host startPort endPort k
                = Some ([], k))
  /\ (startPort <= endPort < max_int64 ->
      forall fuel,
        (Z.to_nat (endPort - startPort + 1) < fuel)%nat ->
        ScanPortRange fuel d host startPort endPort k
        = Some (DiscoverTCPServers d host
                  (map (fun i => startPort + Z.of_nat i)
                     (seq 0 (Z.to_nat (endPort - startPort + 1)))) k))
  /\ (endPort = max_int64 ->
      forall fuel, ScanPortRange fuel d host startPort endPort k = None).
Proof.
  intros Hs He. pose proof (in_int64_bounds _ Hs) as Hsb.
  pose proof (in_int64_bounds _ He) as Heb.
  split; [|split].
  - intros Hempty fuel. unfold ScanPortRange. simpl.
    now replace (startPort <=? endPort) with false
      by (symmetry; apply Z.leb_gt; lia).
  - intros Hrange fuel Hfuel. unfold ScanPortRange, max_int64 in *.
    pose proof (portRange_counts (Z.to_nat (endPort - startPort + 1)) fuel
                  startPort [] Hfuel) as Hp.
    rewrite Z2Nat.id in Hp by lia.
    replace (startPort + (endPort - startPort + 1) - 1) with endPort in Hp
      by lia.
    rewrite Hp by lia. reflexivity.
  - intros -> fuel. unfold ScanPortRange.
    now rewrite portRange_never_ends.
Qed.

End EngineFacts.

(** ** Further scenarios on the scripted environment *)

Section FurtherScenarios.
Import Mcp Client Mock Scenes.

Lemma Disconnect_after_failure_skips_Close_witness :
  let s' := snd (run OpListTools 5 None (ready sendFails)) in
  Disconnect s' = (None, s') /\ GetServerInfo s' = Some demoServer.
Proof.
  destruct (Disconnect_after_failure_skips_Close OpListTools 5%nat None
              (ready sendFails)
              (fst (run OpListTools 5 None (ready sendFails)))
              (snd (run OpListTools 5 None (ready sendFails))))
    as [Hd Hsi]; [reflexivity | reflexivity |].
  split; [exact Hd|]. simpl. rewrite Hd in Hsi. exact Hsi.
Defined.

Lemma Disconnect_then_local_errors_witness :
  let s1 := snd (Disconnect (ready silent)) in
  GetServerInfo s1 = None
  /\ run OpListPrompts 5 None s1 = (Fail ErrNotInitialized, s1).
Proof.
  destruct (Disconnect_then_local_errors (ready silent) OpListPrompts 5%nat
              None) as (_ & _ & _ & Hsi & _ & Hrun); [reflexivity|].
  split; [exact Hsi | exact Hrun].
Defined.

Lemma Connect_once_witness :
  let s1 := snd (Connect None (start silent)) in
  IsConnected s1 = true /\ Connect (Some 3) s1 = (Ok tt, s1).
Proof.
  pose proof (Connect_once None (start silent)) as Honce.
  simpl in Honce.
  destruct Honce as (_ & _ & _ & Hc & _ & Hagain); [reflexivity|].
  split; [exact Hc | apply Hagain].
Defined.

Lemma only_transport_failure_disconnects_witness :
  let s' := snd (run OpListTools 5 None (ready silent)) in
  connected (client s') = true /\ serverInfo (client s') = Some demoServer.
Proof.
  destruct (only_transport_failure_disconnects OpListTools 5%nat None
              (ready silent)
              (fst (run OpListTools 5 None (ready silent)))
              (snd (run OpListTools 5 None (ready silent))))
    as (Hc & _ & Hrest); [reflexivity | reflexivity | discriminate |].
  destruct (Hrest eq_refl) as (_ & Hsi & _).
  split; [exact Hc | exact Hsi].
Defined.

Lemma receiveLoop_returns_first_match_witness :
  exists discarded,
    added (ready lateAnswer)
      (snd (receiveLoop 5 None 7 (ready lateAnswer)))
    = map (fun m => EvReceive (inr m)) discarded
        ++ [EvReceive (inr (response (VString "7")))]
    /\ List.length discarded = 2%nat.
Proof.
  destruct (receiveLoop_returns_first_match 5%nat None 7 (ready lateAnswer)
              (response (VString "7"))
              (snd (receiveLoop 5 None 7 (ready lateAnswer))))
    as (discarded & Hadded & _); [reflexivity|].
  exists discarded. split; [exact Hadded|].
  apply (f_equal (@List.length Event)) in Hadded.
  rewrite length_app, length_map in Hadded. simpl in Hadded. lia.
Defined.

Lemma transport_gone_is_local_witness :
  run (OpCallTool "search" []) 5 None (ready unplugged)
  = (Fail (ErrWrap "connection check failed"
             (ErrNew "transport disconnected")),
     with_client (ready unplugged)
       (set_flags (client (ready unplugged)) false false))
  /\ run OpListTools 5 None (ready unplugged)
     = (Fail (ErrWrap "list tools request failed"
                (ErrNew "transport disconnected")),
        snd (nextRequestID (ready unplugged))).
Proof.
  split.
  - exact (transport_gone_is_local (OpCallTool "search" []) 5 None
             (ready unplugged) eq_refl eq_refl eq_refl).
  - exact (transport_gone_is_local OpListTools 5 None
             (ready unplugged) eq_refl eq_refl eq_refl).
Defined.

Lemma server_error_is_reported_witness :
  exists s',
    run OpListTools 1 None (ready refuses)
    = (Fail (ErrNew "list tools error: Method not found"), s')
    /\ connected (client s') = true
    /\ initialized (client s') = true.
Proof.
  destruct (server_error_is_reported OpListTools 0 None (ready refuses)
              refusal refuses
              {| up := true; sends := []; inbox := []; now := 1 |}
              {| ei_Code := -32601; ei_Message := "Method not found";
                 ei_Data := VNil |})
    as (s' & Hrun & Hc & _); try reflexivity.
  exists s'. split; [exact Hrun|]. rewrite Hc. split; reflexivity.
Defined.

Lemma Initialize_stores_server_identity_witness :
  let s' := snd (Initialize 5 None me (connectedClient (answers (VInt64 1)))) in
  GetServerInfo s' = Some demoServer /\ IsInitialized s' = true.
Proof.
  destruct (Initialize_stores_server_identity 5 None me
              (connectedClient (answers (VInt64 1)))
              (snd (Initialize 5 None me (connectedClient (answers (VInt64 1))))))
    as (response & initResponse & _ & _ & _ & _ & _ & Hi); [reflexivity|].
  split; [reflexivity | exact Hi].
Defined.

Lemma Build_of_chain_witness :
  let '(_, (t, c)) :=
    Builder.Build
      (Builder.chain [Builder.SetTCP "example.org" 9000;
                      Builder.SetTimeout 0;
                      Builder.SetSTDIO "docker" ["run"];
                      Builder.SetName "my-app"]) in
  t = Transport.Stdio (Transport.NewStdioTransport "docker" ["run"])
  /\ timeout c = 30 * Transport.second.
Proof.
  pose proof (Build_of_chain [Builder.SetTCP "example.org" 9000;
                              Builder.SetTimeout 0;
                              Builder.SetSTDIO "docker" ["run"];
                              Builder.SetName "my-app"]) as Hb.
  simpl in Hb. destruct Hb as (_ & _ & _ & _ & _ & _ & _ & Hlast).
  split; [|reflexivity].
  specialize (Hlast [Builder.SetTCP "example.org" 9000; Builder.SetTimeout 0]
                (Builder.SetSTDIO "docker" ["run"]) [Builder.SetName "my-app"]
                eq_refl eq_refl eq_refl).
  simpl in Hlast. exact Hlast.
Defined.

Lemma parseLines_line_witness :
  Discovery.parseLines [portless] [] = [].
Proof.
  exact (parseLines_line portless ["3f2a9c"; "mcp-server"; "acme/mcp:1"]
           [] [] eq_refl ltac:(discriminate) eq_refl).
Defined.

(** So a container named after the protocol but without published
    ports is not discovered. *)
Example portless_container_is_missed :
  fst (Discovery.DiscoverDockerServers Discovery.NewDiscovery
         {| listening := []; docker := true; ps := Some portless |})
  = [].
Proof. vm_compute. reflexivity. Qed.

Lemma DiscoverTCPServers_filters_witness :
  map Discovery.Port
    (fst (Discovery.DiscoverTCPServers Discovery.NewDiscovery "localhost"
            [3000; 8811; 8080; 8811]
            {| listening := ["localhost:8811"; "localhost:3000"];
               docker := false; ps := None |}))
  = [3000; 8811; 8811].
Proof.
  rewrite (DiscoverTCPServers_filters (H := Mock.host));
    [reflexivity | intros address t k0; reflexivity].
Defined.

Lemma ScanPortRange_range_witness :
  Scan.ScanPortRange 4 Discovery.NewDiscovery "localhost" 8810 8812 tt
  = Some (Discovery.DiscoverTCPServers Discovery.NewDiscovery "localhost"
            [8810; 8811; 8812] tt)
  /\ Scan.ScanPortRange 1 Discovery.NewDiscovery "localhost" 9 8 tt
     = Some ([], tt).
Proof.
  destruct (ScanPortRange_range (H := Mock.quiet) Discovery.NewDiscovery
              "localhost" 8810 8812 tt eq_refl eq_refl) as (_ & Hrange & _).
  destruct (ScanPortRange_range (H := Mock.quiet) Discovery.NewDiscovery
              "localhost" 9 8 tt eq_refl eq_refl) as (Hempty & _).
  split.
  - apply (Hrange ltac:(unfold max_int64; lia) 4%nat). simpl. lia.
  - apply Hempty. lia.
Defined.

End FurtherScenarios.

Section WireScenarios.
Import Mcp Mock MockWire.

Lemma stdio_transport_stays_wired_witness :
  exists s' k',
    Wire.drive Wire.stdioStep
      [Wire.DoSend notice; Wire.DoConnect tt; Wire.DoSend notice;
       Wire.DoReceive]
      (Transport.NewStdioTransport "echo" ["hello"])
      (MockWire.boot MockWire.healthy)
    = Wire.Returns (s', k')
    /\ close_steps s'
       = [Transport.PipeClose 4%nat; Transport.PipeClose 4%nat;
          Transport.PipeClose 4%nat; Transport.ProcessKill 5%nat;
          Transport.CmdWait 7%nat].
Proof.
  destruct (stdio_transport_stays_wired (H := MockWire.io) (H0 := MockWire.os)
              (H1 := MockWire.codec) "echo" ["hello"]
              [Wire.DoSend notice; Wire.DoConnect tt; Wire.DoSend notice;
               Wire.DoReceive]
              (MockWire.boot MockWire.healthy))
    as (s' & k' & Hrun & _ & Hsteps).
  exists s', k'. split; [exact Hrun|].
  vm_compute in Hrun. injection Hrun as <- _. reflexivity.
Defined.

Lemma StdioConnect_failure_keeps_pipes_witness :
  let s' := fst (snd (Wire.StdioConnect tt
                        (Transport.NewStdioTransport "mcp-server" [])
                        MockWire.cannotStart)) in
  Transport.stdio_stdin s' = Some 4%nat
  /\ Transport.StdioClose s' (MockWire.boot MockWire.cannotStart)
     = (None, (s', MockWire.boot MockWire.cannotStart)).
Proof.
  destruct (StdioConnect_failure_keeps_pipes (H := MockWire.io)
              (H0 := MockWire.os) tt
              (Transport.NewStdioTransport "mcp-server" [])
              MockWire.cannotStart
              (ErrWrap "failed to start command 'mcp-server []'"
                 (ErrNew "exec: not found"))
              (fst (snd (Wire.StdioConnect tt
                           (Transport.NewStdioTransport "mcp-server" [])
                           MockWire.cannotStart)))
              MockWire.cannotStart)
    as (_ & Hclose & Hpipe); [reflexivity | reflexivity |].
  split.
  - apply (Hpipe 7%nat MockWire.cannotStart 4%nat MockWire.cannotStart);
      reflexivity.
  - apply Hclose.
Defined.

End WireScenarios.
